(** * Log-analytics importer: a shallow embedding of [import_logs.py]

    The development embeds the parts of
    [src/piwik_pro_log_analytics/import_logs.py] that the specification's
    properties talk about, and proves or refutes those properties on the
    embedding.

    Conventions.
    - A Python [str] is a Rocq [string]; a character stands for the code
      point of the same number, so the strings of the model are the Python
      strings over code points 0..255.
    - A Python [dict] is an association list in insertion order: assigning
      to a key that is present keeps its position, a new key goes last.
    - A Python exception is a constructor of [exn]; a function that can
      raise returns a sum.
    - Functions of the Python standard library whose working is not the
      subject here ([fnmatch.fnmatch], [hash], the matching of regular
      expressions, [json.loads], [strptime], [parse_qs], [urlparse]) are
      Section variables: what is proved holds for every behaviour of the
      library.  Small ones ([int], [str], [quote], [json.dumps] of custom
      variables, [split], [rstrip], [lower]) are written out. *)

From Stdlib Require Import String Ascii List ZArith QArith Lia Bool Arith.
From Stdlib Require Import DecimalString Decimal.
Import ListNotations.
Local Close Scope Q_scope.
Local Close Scope Z_scope.
Local Open Scope nat_scope.
Local Open Scope string_scope.
Local Open Scope list_scope.
Set Warnings "-register-all,-notation-for-abbreviation".

(* ================================================================== *)
(** * Part I: the embedding *)
(* ================================================================== *)

(** ** Python values: strings and dictionaries *)

Module Py.

(** The exceptions the embedded code can raise. *)
Inductive exn : Type :=
| IndexError
| KeyError (key : string)
| TypeError
| ValueError
| ZeroDivisionError
| OverflowError.

(** [s[0]]. *)
Definition head (s : string) : exn + ascii :=
  match s with
  | EmptyString => inl IndexError
  | String c _ => inr c
  end.

(** [str.lower] on code points 0..255: [A-Z] and the Latin-1 capitals
    U+00C0..U+00DE (except the multiplication sign U+00D7) move up by 32. *)
Definition lower_char (c : ascii) : ascii :=
  let n := nat_of_ascii c in
  if ((65 <=? n) && (n <=? 90))%nat
     || ((192 <=? n) && (n <=? 222) && negb (n =? 215))%nat
  then ascii_of_nat (n + 32) else c.

Fixpoint lower (s : string) : string :=
  match s with
  | EmptyString => EmptyString
  | String c s' => String (lower_char c) (lower s')
  end.

(** [sub in s] for strings. *)
Fixpoint contains (sub s : string) : bool :=
  prefix sub s ||
  match s with
  | EmptyString => false
  | String _ s' => contains sub s'
  end.

(** [c in s] for a character [c]. *)
Definition has_char (c : ascii) (s : string) : bool :=
  contains (String c EmptyString) s.

(** [s.split(sep)[-1]] for a one-character separator: what follows the
    last separator. *)
Fixpoint split_last (sep : ascii) (s : string) : string :=
  match s with
  | EmptyString => EmptyString
  | String c s' =>
      if contains (String sep EmptyString) s' then split_last sep s'
      else if Ascii.eqb c sep then s' else s
  end.

(** [x in l] for a list or set of strings. *)
Definition mem (x : string) (l : list string) : bool :=
  existsb (String.eqb x) l.

(** Dictionaries. *)
Definition dict (V : Type) : Type := list (string * V).

Fixpoint get {V} (k : string) (d : dict V) : option V :=
  match d with
  | [] => None
  | (k', v) :: d' => if String.eqb k k' then Some v else get k d'
  end.

Definition has {V} (k : string) (d : dict V) : bool :=
  match get k d with Some _ => true | None => false end.

(** [d[k] = v]. *)
Fixpoint set {V} (k : string) (v : V) (d : dict V) : dict V :=
  match d with
  | [] => [(k, v)]
  | (k', v') :: d' =>
      if String.eqb k k' then (k', v) :: d' else (k', v') :: set k v d'
  end.

(** [del d[k]] for a key that is present (a no-op otherwise). *)
Fixpoint del {V} (k : string) (d : dict V) : dict V :=
  match d with
  | [] => []
  | (k', v') :: d' => if String.eqb k k' then d' else (k', v') :: del k d'
  end.

(** [d.update(items)]: the items are assigned in order. *)
Definition update {V} (items : list (string * V)) (d : dict V) : dict V :=
  fold_left (fun acc kv => set (fst kv) (snd kv) acc) items d.

(** The wildcard fragment of [fnmatch.fnmatch] on a POSIX system: [*]
    matches any run of characters, [?] any one character, every other
    character itself.  It agrees with the library on patterns that
    contain no bracket expression. *)
Fixpoint glob (p s : string) : bool :=
  match p with
  | EmptyString => match s with EmptyString => true | _ => false end
  | String c p' =>
      if Ascii.eqb c "*" then
        (fix star (t : string) : bool :=
           glob p' t ||
           match t with
           | EmptyString => false
           | String _ t' => star t'
           end) s
      else
        match s with
        | EmptyString => false
        | String d s' =>
            (Ascii.eqb c "?" || Ascii.eqb c d) && glob p' s'
        end
  end.

(** [fnmatch.fnmatch(name, pat)] for such patterns. *)
Definition fnmatch (name pat : string) : bool := glob pat name.

(** [s[:n]]. *)
Definition take (n : nat) (s : string) : string := substring 0 n s.

(** [s.replace(c, "")] for a one-character [c]. *)
Fixpoint remove_char (c : ascii) (s : string) : string :=
  match s with
  | EmptyString => EmptyString
  | String a s' =>
      if Ascii.eqb a c then remove_char c s' else String a (remove_char c s')
  end.

(** [s.split(sep)] for a one-character separator. *)
Fixpoint split (sep : ascii) (s : string) : list string :=
  match s with
  | EmptyString => [EmptyString]
  | String c s' =>
      if Ascii.eqb c sep then EmptyString :: split sep s'
      else
        match split sep s' with
        | h :: t => String c h :: t
        | [] => [String c EmptyString]
        end
  end.

(** [s.rstrip(c)] for a one-character [c]. *)
Fixpoint rstrip (c : ascii) (s : string) : string :=
  match s with
  | EmptyString => EmptyString
  | String a s' =>
      match rstrip c s' with
      | EmptyString => if Ascii.eqb a c then EmptyString else String a EmptyString
      | r => String a r
      end
  end.

(** The blanks that [int] drops around a number. *)
Definition is_space (c : ascii) : bool :=
  let n := nat_of_ascii c in
  ((9 <=? n) && (n <=? 13) || (n =? 32) || (n =? 133) || (n =? 160))%nat.

Fixpoint lstrip_space (s : string) : string :=
  match s with
  | EmptyString => EmptyString
  | String c s' => if is_space c then lstrip_space s' else s
  end.

Fixpoint rstrip_space (s : string) : string :=
  match s with
  | EmptyString => EmptyString
  | String a s' =>
      match rstrip_space s' with
      | EmptyString => if is_space a then EmptyString else String a EmptyString
      | r => String a r
      end
  end.

(** The value of a decimal digit. *)
Definition digit_of (c : ascii) : option Z :=
  let n := nat_of_ascii c in
  if ((48 <=? n) && (n <=? 57))%nat then Some (Z.of_nat (n - 48)) else None.

(** Decimal digits, with single underscores allowed between digits. *)
Fixpoint digits_value (s : string) (acc : Z) (after_digit : bool)
  : option Z :=
  match s with
  | EmptyString => if after_digit then Some acc else None
  | String c s' =>
      match digit_of c with
      | Some d => digits_value s' (10 * acc + d)%Z true
      | None =>
          if Ascii.eqb c "_" && after_digit then digits_value s' acc false
          else None
      end
  end.

Definition unsigned_of_str (s : string) : option Z := digits_value s 0%Z false.

(** [int(s)] for a string [s]: blanks around the number are dropped, then
    come an optional sign and the digits; [None] stands for [ValueError]. *)
Definition int_of_str (s : string) : option Z :=
  match rstrip_space (lstrip_space s) with
  | EmptyString => None
  | String c s' =>
      if Ascii.eqb c "+" then unsigned_of_str s'
      else if Ascii.eqb c "-" then option_map Z.opp (unsigned_of_str s')
      else unsigned_of_str (String c s')
  end.

(** Hexadecimal digits. *)
Definition hex_upper (n : nat) : ascii :=
  if (n <? 10)%nat then ascii_of_nat (48 + n) else ascii_of_nat (55 + n).
Definition hex_lower (n : nat) : ascii :=
  if (n <? 10)%nat then ascii_of_nat (48 + n) else ascii_of_nat (87 + n).

(** [urllib.parse.quote(s, "")]: the string is encoded in UTF-8 and every
    byte outside [A-Za-z0-9_.-~] is written [%XX]. *)
Definition always_safe (n : nat) : bool :=
  ((65 <=? n) && (n <=? 90) || (97 <=? n) && (n <=? 122)
   || (48 <=? n) && (n <=? 57)
   || (n =? 95) || (n =? 46) || (n =? 45) || (n =? 126))%nat.

Definition percent_byte (b : nat) : string :=
  String "%" (String (hex_upper (b / 16)) (String (hex_upper (b mod 16))
                                                  EmptyString)).

Definition utf8_bytes (c : ascii) : list nat :=
  let n := nat_of_ascii c in
  if (n <? 128)%nat then [n] else [192 + n / 64; 128 + n mod 64]%nat.

Definition quote_char (c : ascii) : string :=
  let n := nat_of_ascii c in
  if always_safe n then String c EmptyString
  else String.concat EmptyString (map percent_byte (utf8_bytes c)).

Fixpoint quote (s : string) : string :=
  match s with
  | EmptyString => EmptyString
  | String c s' => quote_char c ++ quote s'
  end.

(** [str(n)] for a natural number [n]. *)
Definition str_of_nat (n : nat) : string :=
  NilEmpty.string_of_uint (Nat.to_uint n).

(** [str(z)] for an integer [z]. *)
Definition str_of_Z (z : Z) : string :=
  match z with
  | Z0 => "0"
  | Zpos p => str_of_nat (Pos.to_nat p)
  | Zneg p => String "-" (str_of_nat (Pos.to_nat p))
  end.

End Py.

(** ** The filter chain of the parser ([Parser.check_*]) *)

Module Filters.

Definition STATIC_EXTENSIONS : list string :=
  ["gif"; "jpg"; "jpeg"; "png"; "bmp"; "ico"; "svg"; "svgz"; "ttf"; "otf";
   "eot"; "woff"; "woff2"; "class"; "swf"; "css"; "js"; "xml"; "webp"].

Definition STATIC_FILES : list string := ["robots.txt"].

Definition DOWNLOAD_EXTENSIONS : list string :=
  ["7z"; "aac"; "arc"; "arj"; "asf"; "asx"; "avi"; "bin"; "csv"; "deb";
   "dmg"; "doc"; "docx"; "exe"; "flac"; "flv"; "gz"; "gzip"; "hqx";
   "ibooks"; "jar"; "json"; "mpg"; "mp2"; "mp3"; "mp4"; "mpeg"; "mov";
   "movie"; "msi"; "msp"; "odb"; "odf"; "odg"; "odp";
   "ods"; "odt"; "ogg"; "ogv"; "pdf"; "phps"; "ppt"; "pptx"; "qt"; "qtm";
   "ra"; "ram"; "rar"; "rpm"; "rtf"; "sea"; "sit"; "tar"; "tbz";
   "bz2"; "tbz"; "tgz"; "torrent"; "txt"; "wav"; "webm"; "wma"; "wmv";
   "wpd"; "xls"; "xlsx"; "xml"; "xsd"; "z"; "zip";
   "azw3"; "epub"; "mobi"; "apk"].

Definition EXCLUDED_USER_AGENTS : list string :=
  ["adsbot-google"; "ask jeeves"; "baidubot"; "bot-"; "bot/"; "ccooter/";
   "crawl"; "curl"; "echoping"; "exabot"; "feed"; "googlebot";
   "ia_archiver"; "java/"; "libwww"; "mediapartners-google"; "msnbot";
   "netcraftsurvey"; "panopta"; "pingdom.com_bot_"; "robot"; "spider";
   "surveybot"; "twiceler"; "voilabot"; "yahoo"; "yandex"; "zabbix";
   "googlestackdrivermonitoring"].

(** The options of [config.options] that the checks read. *)
Record Options : Type := mkOptions {
  hostnames : list string;
  enable_static : bool;
  download_extensions : list string;
  excluded_useragents : list string;
  enable_bots : bool;
  replay_tracking : bool;
  enable_http_errors : bool;
  enable_http_redirects : bool;
  excluded_paths : list string;
  included_paths : list string
}.

(** The attributes of a [Hit] that the checks read or write.  [host] is
    [None] when the attribute was never set ([hasattr(hit, "host")] is
    false). *)
Record Hit : Type := mkHit {
  host : option string;
  path : string;
  extension : string;
  user_agent : string;
  status : string;
  is_download : bool;
  is_robot : bool;
  is_error : bool;
  is_redirect : bool
}.

Definition set_is_download (h : Hit) : Hit :=
  mkHit (host h) (path h) (extension h) (user_agent h) (status h)
        true (is_robot h) (is_error h) (is_redirect h).
Definition set_is_robot (h : Hit) : Hit :=
  mkHit (host h) (path h) (extension h) (user_agent h) (status h)
        (is_download h) true (is_error h) (is_redirect h).
Definition set_is_error (h : Hit) : Hit :=
  mkHit (host h) (path h) (extension h) (user_agent h) (status h)
        (is_download h) (is_robot h) true (is_redirect h).
Definition set_is_redirect (h : Hit) : Hit :=
  mkHit (host h) (path h) (extension h) (user_agent h) (status h)
        (is_download h) (is_robot h) (is_error h) true.

(** The counters of [stats] that the checks increment. *)
Record Stats : Type := mkStats {
  count_lines_hostname_skipped : nat;
  count_lines_static : nat;
  count_lines_downloads : nat;
  count_lines_skipped_downloads : nat;
  count_lines_skipped_user_agent : nat;
  count_lines_skipped_http_errors : nat;
  count_lines_skipped_http_redirects : nat
}.

Definition incr_hostname_skipped (s : Stats) : Stats :=
  mkStats (S (count_lines_hostname_skipped s)) (count_lines_static s)
          (count_lines_downloads s) (count_lines_skipped_downloads s)
          (count_lines_skipped_user_agent s)
          (count_lines_skipped_http_errors s)
          (count_lines_skipped_http_redirects s).
Definition incr_static (s : Stats) : Stats :=
  mkStats (count_lines_hostname_skipped s) (S (count_lines_static s))
          (count_lines_downloads s) (count_lines_skipped_downloads s)
          (count_lines_skipped_user_agent s)
          (count_lines_skipped_http_errors s)
          (count_lines_skipped_http_redirects s).
Definition incr_downloads (s : Stats) : Stats :=
  mkStats (count_lines_hostname_skipped s) (count_lines_static s)
          (S (count_lines_downloads s)) (count_lines_skipped_downloads s)
          (count_lines_skipped_user_agent s)
          (count_lines_skipped_http_errors s)
          (count_lines_skipped_http_redirects s).
Definition incr_skipped_downloads (s : Stats) : Stats :=
  mkStats (count_lines_hostname_skipped s) (count_lines_static s)
          (count_lines_downloads s) (S (count_lines_skipped_downloads s))
          (count_lines_skipped_user_agent s)
          (count_lines_skipped_http_errors s)
          (count_lines_skipped_http_redirects s).
Definition incr_skipped_user_agent (s : Stats) : Stats :=
  mkStats (count_lines_hostname_skipped s) (count_lines_static s)
          (count_lines_downloads s) (count_lines_skipped_downloads s)
          (S (count_lines_skipped_user_agent s))
          (count_lines_skipped_http_errors s)
          (count_lines_skipped_http_redirects s).
Definition incr_skipped_http_errors (s : Stats) : Stats :=
  mkStats (count_lines_hostname_skipped s) (count_lines_static s)
          (count_lines_downloads s) (count_lines_skipped_downloads s)
          (count_lines_skipped_user_agent s)
          (S (count_lines_skipped_http_errors s))
          (count_lines_skipped_http_redirects s).
Definition incr_skipped_http_redirects (s : Stats) : Stats :=
  mkStats (count_lines_hostname_skipped s) (count_lines_static s)
          (count_lines_downloads s) (count_lines_skipped_downloads s)
          (count_lines_skipped_user_agent s)
          (count_lines_skipped_http_errors s)
          (S (count_lines_skipped_http_redirects s)).

(** What a check does: it returns a boolean, with the hit and the
    counters as it leaves them, or it raises. *)
Inductive outcome : Type :=
| Ret (b : bool) (h : Hit) (s : Stats)
| Raise (e : Py.exn).

Section Checks.

(** [fnmatch.fnmatch name pattern]. *)
Variable fnmatch : string -> string -> bool.
Variable opts : Options.

Definition check_hostname (h : Hit) (s : Stats) : outcome :=
  match host h, hostnames opts with
  | None, _ => Ret true h s
  | Some _, [] => Ret true h s
  | Some hst, pats =>
      let result := existsb (fnmatch hst) pats in
      if result then Ret true h s
      else Ret false h (incr_hostname_skipped s)
  end.

Definition check_static (h : Hit) (s : Stats) : outcome :=
  let filename := Py.split_last "/" (path h) in
  if Py.mem (extension h) STATIC_EXTENSIONS || Py.mem filename STATIC_FILES
  then
    if enable_static opts then Ret true (set_is_download h) s
    else Ret false h (incr_static s)
  else Ret true h s.

Definition check_download (h : Hit) (s : Stats) : outcome :=
  if Py.mem (extension h) (download_extensions opts)
  then Ret true (set_is_download h) (incr_downloads s)
  else if Py.mem (extension h) DOWNLOAD_EXTENSIONS
  then Ret false h (incr_skipped_downloads s)
  else Ret true h s.

Definition check_user_agent (h : Hit) (s : Stats) : outcome :=
  let ua := Py.lower (user_agent h) in
  if existsb (fun x => Py.contains x ua)
             (EXCLUDED_USER_AGENTS ++ excluded_useragents opts)
  then
    if enable_bots opts then Ret true (set_is_robot h) s
    else Ret false h (incr_skipped_user_agent s)
  else Ret true h s.

Definition check_http_error (h : Hit) (s : Stats) : outcome :=
  match Py.head (status h) with
  | inl e => Raise e
  | inr c =>
      if Ascii.eqb c "4" || Ascii.eqb c "5" then
        if replay_tracking opts then Ret true h s
        else if enable_http_errors opts then Ret true (set_is_error h) s
        else Ret false h (incr_skipped_http_errors s)
      else Ret true h s
  end.

Definition check_http_redirect (h : Hit) (s : Stats) : outcome :=
  match Py.head (status h) with
  | inl e => Raise e
  | inr c =>
      if Ascii.eqb c "3" && negb (String.eqb (status h) "304") then
        if enable_http_redirects opts then Ret true (set_is_redirect h) s
        else Ret false h (incr_skipped_http_redirects s)
      else Ret true h s
  end.

Definition check_path (h : Hit) (s : Stats) : outcome :=
  if existsb (fun p => fnmatch (path h) p) (excluded_paths opts)
  then Ret false h s
  else
    match included_paths opts with
    | [] => Ret true h s
    | incl => Ret (existsb (fun p => fnmatch (path h) p) incl) h s
    end.

(** The attributes of [Parser], in the order of the class body (what an
    instance inherits from [object] has no name in [check_]).  The boolean
    says whether [inspect.ismethod] holds of the attribute read from an
    instance: it does for the plain methods and not for the static
    ones. *)
Definition parser_members : list (string * bool) :=
  [("__init__", true);
   ("check_hostname", true);
   ("check_static", true);
   ("check_download", true);
   ("check_user_agent", true);
   ("check_http_error", true);
   ("check_http_redirect", true);
   ("check_path", true);
   ("_try_match", false);
   ("check_format", false);
   ("detect_format", false);
   ("is_filtered", true);
   ("invalid_line", false);
   ("filtered_line", false);
   ("_get_file_and_filename", true);
   ("_configure_format", true);
   ("_validate_format", true);
   ("parse", true);
   ("is_hit_for_tracker", true);
   ("_add_custom_vars_from_regex_groups", true)].

(** [inspect.getmembers(obj, predicate)] returns the members that
    satisfy the predicate sorted by name. *)
Fixpoint insert_by_name (m : string * bool) (l : list (string * bool))
  : list (string * bool) :=
  match l with
  | [] => [m]
  | m' :: l' =>
      if String.leb (fst m) (fst m') then m :: l
      else m' :: insert_by_name m l'
  end.

Definition sort_by_name (l : list (string * bool)) : list (string * bool) :=
  fold_right insert_by_name [] l.

Definition getmembers_ismethod (l : list (string * bool)) : list string :=
  map fst (filter snd (sort_by_name l)).

(** [Parser.__init__]: the names of [self.check_methods], in order. *)
Definition check_methods : list string :=
  filter (prefix "check_") (getmembers_ismethod parser_members).

(** Calling the bound method of that name. *)
Definition call_check (name : string) (h : Hit) (s : Stats) : outcome :=
  if String.eqb name "check_hostname" then check_hostname h s
  else if String.eqb name "check_static" then check_static h s
  else if String.eqb name "check_download" then check_download h s
  else if String.eqb name "check_user_agent" then check_user_agent h s
  else if String.eqb name "check_http_error" then check_http_error h s
  else if String.eqb name "check_http_redirect" then check_http_redirect h s
  else if String.eqb name "check_path" then check_path h s
  else Raise Py.TypeError.

(** [all(method(hit) for method in methods)]: the generator is consumed
    until the first false result.  The first component lists the checks
    that were called, in order. *)
Fixpoint run_checks (methods : list string) (h : Hit) (s : Stats)
  : list string * outcome :=
  match methods with
  | [] => ([], Ret true h s)
  | m :: rest =>
      match call_check m h s with
      | Ret true h' s' =>
          let (called, r) := run_checks rest h' s' in (m :: called, r)
      | r => ([m], r)
      end
  end.

(** Line 2943 of [Parser.parse]. *)
Definition run_filter_chain (h : Hit) (s : Stats) : list string * outcome :=
  run_checks check_methods h s.

End Checks.

(** A status that [check_http_redirect] takes for a redirect: it starts
    with [3] and is not [304]. *)
Definition redirect_status (st : string) : Prop :=
  (exists rest, st = String "3" rest) /\ st <> "304".

End Filters.

(** ** Format detection ([Parser.check_format]) *)

Module Detector.

(** What [Parser._try_match] hands back for one candidate format.  The
    regular-expression engine and the JSON parser are library code, so
    the model starts from their answer. *)
Inductive match_result : Type :=
| NoMatch                    (* [None] or [False], also after an exception *)
| ReMatch (groups : nat)     (* an [re.Match]; [len(match.groups())] *)
| PlainTrue.                 (* [True], which has no [groups] attribute *)

(** The keys of [FORMATS], in registration order. *)
Definition FORMATS : list string :=
  ["common"; "common_vhost"; "ncsa_extended"; "common_complete";
   "w3c_extended"; "amazon_cloudfront"; "incapsula_w3c"; "iis";
   "shoutcast"; "s3"; "icecast2"; "elb"; "nginx_json"; "ovh";
   "haproxy"; "gandi"].

Section CheckFormat.

(** [Parser._try_match(FORMATS[name], lineOrFile)] for the line or file
    under test. *)
Variable try_match : string -> match_result.

(** One turn of the loop; the state is [(format, format_groups)], with
    [None] for the initial [False]. *)
Definition check_step (st : option string * nat) (name : string)
  : option string * nat :=
  if String.eqb name "ovh" then st
  else
    match try_match name with
    | NoMatch => st
    | ReMatch match_groups =>
        if (snd st <? match_groups)%nat then (Some name, match_groups)
        else st
    | PlainTrue => (Some name, snd st)
    end.

Definition check_format_in (formats : list string) : option string :=
  fst (fold_left check_step formats (None, 0%nat)).

(** [Parser.check_format]; the call of [check_for_iis_option] only logs
    a warning and is left out. *)
Definition check_format : option string := check_format_in FORMATS.

(** What the loop of [check_format] has established after a prefix of
    the registry, when every match so far is an [re.Match]. *)
Definition detect_inv (seen : list string) (st : option string * nat)
  : Prop :=
  (forall m g, In m seen -> m <> "ovh" -> try_match m = ReMatch g ->
               g <= snd st)
  /\ match fst st with
     | None => snd st = 0
     | Some n =>
         exists pre post,
           seen = pre ++ n :: post
           /\ n <> "ovh"
           /\ try_match n = ReMatch (snd st)
           /\ 0 < snd st
           /\ (forall m g, In m pre -> m <> "ovh" ->
                           try_match m = ReMatch g -> g < snd st)
     end.

End CheckFormat.

End Detector.

(** ** Sharding of a batch over the recorders ([Recorder.add_hits]) *)

Module Recorder.

(** A value stored in [hit.args]: a string, or the dictionary of custom
    variables [{index: [name, value]}] kept under [cvar] and [_cvar]. *)
Inductive argval : Type :=
| AStr (s : string)
| ACvars (cv : list (Z * (string * string))).

(** The attributes of a [Hit] that sharding reads. *)
Record Hit : Type := mkHit {
  lineno : nat;
  ip : string;
  args : Py.dict argval
}.

Section AddHits.

(** The builtin [hash].  The parser stores only strings under the four
    keys read below, so the unhashable case does not arise. *)
Variable hash : argval -> Z.
Variable replay_tracking : bool.

(** The [for ... break] loop of [get_visitor_id_hash]. *)
Fixpoint first_present (names : list string) (a : Py.dict argval)
  : option argval :=
  match names with
  | [] => None
  | n :: rest =>
      match Py.get n a with
      | Some v => Some v
      | None => first_present rest a
      end
  end.

Definition visitor_id (h : Hit) : argval :=
  if replay_tracking then
    match first_present ["uid"; "cid"; "_id"; "cip"] (args h) with
    | Some v => v
    | None => AStr (ip h)
    end
  else AStr (ip h).

Definition get_visitor_id_hash (h : Hit) : Z := Z.abs (hash (visitor_id h)).

(** [hits_by_client[i].append(hit)]. *)
Fixpoint append_at {A} (i : nat) (x : A) (ls : list (list A))
  : list (list A) :=
  match ls, i with
  | [], _ => []
  | l :: rest, O => (l ++ [x]) :: rest
  | l :: rest, S j => l :: append_at j x rest
  end.

(** The index of the worker a hit goes to, among [n] workers:
    [hit.get_visitor_id_hash() % len(cls.recorders)]. *)
Definition worker (n : nat) (h : Hit) : nat :=
  Z.to_nat (get_visitor_id_hash h mod Z.of_nat n).

(** The first loop of [add_hits]: [n] is [len(cls.recorders)]. *)
Fixpoint distribute (n : nat) (all_hits : list Hit)
         (hits_by_client : list (list Hit)) : Py.exn + list (list Hit) :=
  match all_hits with
  | [] => inr hits_by_client
  | hit :: rest =>
      match n with
      | O => inl Py.ZeroDivisionError
      | S _ =>
          distribute n rest (append_at (worker n hit) hit hits_by_client)
      end
  end.

(** A recorder's queue holds the batches put on it and not yet taken;
    [put] adds at the back.  (The queue is bounded: a [put] on a full
    queue waits for the worker, which the model does not show.) *)
Definition queue : Type := list (list Hit).

Fixpoint put_all (queues : list queue) (hits_by_client : list (list Hit))
  : list queue :=
  match queues, hits_by_client with
  | q :: qs, b :: bs => (q ++ [b]) :: put_all qs bs
  | qs, _ => qs
  end.

(** [Recorder.add_hits]: [recorders] are the queues of [cls.recorders]. *)
Definition add_hits (recorders : list queue) (all_hits : list Hit)
  : Py.exn + list queue :=
  let n := length recorders in
  match distribute n all_hits (repeat [] n) with
  | inl e => inl e
  | inr hits_by_client => inr (put_all recorders hits_by_client)
  end.

End AddHits.

End Recorder.

(** ** The HTTP client: retries and the failure callback *)

Module Http.

(** Parsed JSON ([json.loads]). *)
Inductive json : Type :=
| JNull
| JBool (b : bool)
| JInt (z : Z)
| JFloat (literal : string)
| JStr (s : string)
| JArr (l : list json)
| JObj (d : list (string * json)).

(** A Python object used as an error message: a string, or a value taken
    from a parsed response. *)
Inductive obj : Type :=
| OStr (s : string)
| OJson (j : json).

(** [j[key]] for a string key. *)
Definition subscript (j : json) (key : string) : Py.exn + json :=
  match j with
  | JObj d =>
      match Py.get key d with
      | Some v => inr v
      | None => inl (Py.KeyError key)
      end
  | _ => inl Py.TypeError
  end.

(** The lower bound of a slice: an integer (a boolean counts as one) or
    [None]. *)
Definition slice_index (j : json) : Py.exn + option Z :=
  match j with
  | JInt z => inr (Some z)
  | JBool b => inr (Some (if b then 1 else 0)%Z)
  | JNull => inr None
  | _ => inl Py.TypeError
  end.

(** [l[k:]]: a negative [k] counts from the end, and both ends clamp. *)
Definition slice_from {A} (k : Z) (l : list A) : list A :=
  if (0 <=? k)%Z then skipn (Z.to_nat k) l
  else skipn (Z.to_nat (Z.of_nat (length l) + k)) l.

(** The exceptions that reach [_call_wrapper]. *)
Inductive exc : Type :=
| HTTPError (code : Z) (msg body : string)  (* [body] is [e.read().decode()] *)
| URLError (reason : obj)
| HTTPException (text : string)
| ValueError (text : string)
| SocketTimeout (text : string)
| Other (e : Py.exn).                       (* any other class *)

(** The classes named in the [except] clause of [_call_wrapper]. *)
Definition caught (e : exc) : bool :=
  match e with
  | Other _ => false
  | _ => true
  end.

Definition _parse_http_exception (e : exc) : option Z * obj :=
  match e with
  | HTTPError code msg body =>
      (Some code,
       OStr ("HTTP Error " ++ Py.str_of_Z code ++ " " ++ msg
             ++ ", response: " ++ body))
  | URLError reason => (None, reason)
  | HTTPException text => (None, OStr text)
  | ValueError text => (None, OStr text)
  | SocketTimeout text => (None, OStr text)
  | Other _ => (None, OStr "")
  end.

Definition PIWIK_DEFAULT_MAX_ATTEMPTS : Z := 3.
Definition PIWIK_DEFAULT_DELAY_AFTER_FAILURE : Z := 10.

Record Options : Type := mkOptions {
  delay_after_failure : Z;
  max_attempts : Z
}.

Section Client.

(** A request of a bulk payload (an argument map); its shape plays no
    role here. *)
Variable Req : Type.

(** The [data] argument of a tracker call: [{"requests": [...]}] in
    bulk mode, [None] in single mode. *)
Definition payload : Type := option (list Req).

(** [json.loads]; [None] stands for any exception. *)
Variable json_loads : string -> option json.

(** [Recorder._on_tracking_failure]: the payload as the call leaves it,
    and what the call returns or raises. *)
Definition _on_tracking_failure (response : string) (data : payload)
  : payload * (Py.exn + obj) :=
  match json_loads response with
  | None => (data, inr (OStr response))
  | Some parsed =>
      match subscript parsed "tracked" with
      | inl e => (data, inl e)
      | inr tracked =>
          match data with
          | None => (data, inl Py.TypeError)
          | Some requests =>
              match slice_index tracked with
              | inl e => (data, inl e)
              | inr k =>
                  let data' :=
                    Some (match k with
                          | Some z => slice_from z requests
                          | None => requests
                          end) in
                  match subscript parsed "message" with
                  | inl e => (data', inl e)
                  | inr m => (data', inr (OJson m))
                  end
              end
          end
      end
  end.

(** What one call of the wrapped function does. *)
Inductive func_result : Type :=
| Returns (response : string)
| Raises (e : exc).

(** How [_call_wrapper] ends. *)
Inductive final : Type :=
| Done (response : string)                    (* [return response] *)
| ErrorRaised (message : obj) (code : option Z) (* [PiwikHttpBase.Error] *)
| Propagated (e : Py.exn)                     (* an exception not caught *)
| OutOfFuel.

(** A run of [_call_wrapper]: the payload handed to each call of the
    wrapped function, the sleeps, the end, and the payload at the end. *)
Record run : Type := mkRun {
  calls : list payload;
  sleeps : list Z;
  ending : final;
  data_after : payload
}.

(** [config.options], or [None] when the global [config] does not exist
    yet ([NameError]). *)
Variable config : option Options.

(** The wrapped function: the outcome of its call after [errors]
    failures, on the current payload. *)
Variable func : nat -> payload -> func_result.
Variable expected_response : option string.
Variable on_failure : option (string -> payload -> payload * (Py.exn + obj)).

Definition retry_settings : Z * Z :=
  match config with
  | Some o => (delay_after_failure o, max_attempts o)
  | None => (PIWIK_DEFAULT_DELAY_AFTER_FAILURE, PIWIK_DEFAULT_MAX_ATTEMPTS)
  end.

Definition add_call (d : payload) (r : run) : run :=
  mkRun (d :: calls r) (sleeps r) (ending r) (data_after r).
Definition add_sleep (t : Z) (r : run) : run :=
  mkRun (calls r) (t :: sleeps r) (ending r) (data_after r).

(** The [except] clause, for a caught exception [e] raised after
    [errors] earlier failures; [again] is the next turn of the loop. *)
Definition handle (again : nat -> payload -> run) (errors : nat)
           (e : exc) (data : payload) : run :=
  let '(code, message) := _parse_http_exception e in
  let '(delay, attempts) := retry_settings in
  let errors' := S errors in
  if (Z.of_nat errors' =? attempts)%Z
  then mkRun [] [] (ErrorRaised message code) data
  else add_sleep delay (again errors' data).

(** The [try] block. *)
Definition attempt (again : nat -> payload -> run) (errors : nat)
           (data : payload) : run :=
  match func errors data with
  | Raises (Other x) => mkRun [] [] (Propagated x) data
  | Raises e => handle again errors e data
  | Returns response =>
      match expected_response with
      | None => mkRun [] [] (Done response) data
      | Some expected =>
          if String.eqb response expected
          then mkRun [] [] (Done response) data
          else
            match on_failure with
            | Some cb =>
                match cb response data with
                | (data', inr error_message) =>
                    handle again errors (URLError error_message) data'
                | (data', inl x) => mkRun [] [] (Propagated x) data'
                end
            | None =>
                (* the format string has two places and one argument:
                   [TypeError] *)
                mkRun [] [] (Propagated Py.TypeError) data
            end
      end
  end.

(** The [while True] loop; each turn uses one unit of fuel. *)
Fixpoint call_loop (fuel : nat) (errors : nat) (data : payload) : run :=
  match fuel with
  | O => mkRun [] [] OutOfFuel data
  | S fuel' => add_call data (attempt (call_loop fuel') errors data)
  end.

(** [_call_wrapper], given enough fuel. *)
Definition _call_wrapper (fuel : nat) (data : payload) : run :=
  call_loop fuel 0 data.

(** What holds of a run that still has [bound] failures to go. *)
Definition run_within (bound : nat) (r : run) : Prop :=
  ending r <> OutOfFuel
  /\ 1 <= List.length (calls r) <= bound
  /\ List.length (calls r) = S (List.length (sleeps r))
  /\ Forall (eq (fst retry_settings)) (sleeps r).

End Client.

Arguments _on_tracking_failure {Req}.
Arguments mkRun {Req}.
Arguments calls {Req}.
Arguments sleeps {Req}.
Arguments ending {Req}.
Arguments data_after {Req}.
Arguments add_call {Req}.
Arguments add_sleep {Req}.
Arguments handle {Req}.
Arguments attempt {Req}.
Arguments call_loop {Req}.
Arguments _call_wrapper {Req}.
Arguments run_within {Req}.

End Http.

(** ** Dates and time zones ([TimeHelper], the date part of [Parser.parse]) *)

Module TimeHelper.

(** A naive [datetime] is the number of microseconds since
    0001-01-01 00:00:00, and a [timedelta] a number of microseconds. *)
Definition datetime : Type := Z.
Definition timedelta_t : Type := Z.

(** [datetime.max], 9999-12-31 23:59:59.999999. *)
Definition DATETIME_MAX : Z := 3652059 * 86400 * 1000000 - 1.

(** [datetime.timedelta(hours=h, minutes=m, seconds=s)]. *)
Definition timedelta (hours minutes seconds : Z) : timedelta_t :=
  ((hours * 3600 + minutes * 60 + seconds) * 1000000)%Z.

(** [datetime + timedelta]: [OverflowError] outside year 1..9999.  (A
    [timedelta] too large to build also makes the sum leave that range.) *)
Definition add (d : datetime) (t : timedelta_t) : Py.exn + datetime :=
  let r := (d + t)%Z in
  if ((0 <=? r) && (r <=? DATETIME_MAX))%Z then inr r
  else inl Py.OverflowError.

(** [TimeHelper.timedelta_from_timezone].  [int(n / 100)] is the quotient
    [n // 100] for the non-negative [n] below 2^53. *)
Definition timedelta_from_timezone (timezone : string)
  : Py.exn + timedelta_t :=
  match Py.int_of_str timezone with
  | None => inl Py.ValueError
  | Some tz =>
      let sign := if (0 <=? tz)%Z then 1%Z else (-1)%Z in
      let n := Z.abs tz in
      let hours := (n / 100 * sign)%Z in
      let minutes := (n mod 100 * sign)%Z in
      inr (timedelta hours minutes 0)
  end.

(** How the date part of [Parser.parse] ends for a line. *)
Inductive outcome : Type :=
| Dated (date : datetime)          (* [hit.date] is set, the line goes on *)
| InvalidLine (reason : string)    (* [invalid_line], the line is skipped *)
| Raise (e : Py.exn).

Section ParseDate.

(** [datetime.datetime.strptime]; [None] stands for [ValueError]. *)
Variable strptime : string -> string -> option datetime.

(** Lines 2949-2966 of [Parser.parse].  [timezone_field] is
    [format.get("timezone")], [None] when the format has no such group
    ([BaseFormatException]). *)
Definition parse_date (date_format : string) (seconds_to_add_to_date : Z)
           (date_string : string) (timezone_field : option string)
  : outcome :=
  match strptime date_string date_format with
  | None => InvalidLine "invalid date or invalid format"
  | Some d =>
      match add d (timedelta 0 0 seconds_to_add_to_date) with
      | inl e => Raise e
      | inr date =>
          match timezone_field with
          | None => Dated date
          | Some field =>
              let timezone := Py.remove_char ":" field in
              if String.eqb timezone EmptyString then Dated date
              else
                match timedelta_from_timezone timezone with
                | inl Py.ValueError => InvalidLine "invalid timezone"
                | inl e => Raise e
                | inr offset =>
                    match add date (- offset)%Z with
                    | inl e => Raise e
                    | inr date' => Dated date'
                    end
                end
          end
      end
  end.

End ParseDate.

(** The character of a decimal digit, and a time zone [+HHMM] or [-HHMM]
    with the digits [h1 h2 m1 m2]. *)
Definition digit_char (d : nat) : ascii := ascii_of_nat (48 + d).

Definition tz_field (negative : bool) (h1 h2 m1 m2 : nat) : string :=
  String (if negative then "-" else "+")%char
    (String (digit_char h1)
       (String (digit_char h2)
          (String (digit_char m1)
             (String (digit_char m2) EmptyString)))).

End TimeHelper.

(** ** PHP deep arrays ([UrlHelper]) *)

Module UrlHelper.

(** The nested structures [convert_array_args] builds: the leaves are the
    values of the flat argument map, which are strings here. *)
Inductive value : Type :=
| VStr (s : string)
| VList (l : list value)
| VDict (d : list (string * value)).

Definition is_empty_str (s : string) : bool :=
  match s with EmptyString => true | _ => false end.

(** The navigation loop and the final assignment of [convert_array_args],
    for the indices that remain and the container reached so far.  A
    container met on the way is kept when it has the wanted type and is
    replaced by an empty one otherwise; stepping into a list with a
    string index raises [TypeError]. *)
Fixpoint set_path (indices : list string) (v : value) (element : value)
  : Py.exn + value :=
  match indices with
  | [] => inl Py.IndexError
  | idx :: rest =>
      match rest with
      | [] =>
          if is_empty_str idx then
            match element with
            | VList l => inr (VList (l ++ [v]))
            | _ => inl Py.TypeError
            end
          else
            match element with
            | VDict d => inr (VDict (Py.set idx v d))
            | _ => inl Py.TypeError
            end
      | next :: _ =>
          match element with
          | VDict d =>
              let want_list := is_empty_str next in
              let child :=
                match Py.get idx d with
                | Some (VList l) => if want_list then VList l else VDict []
                | Some (VDict c) => if want_list then VList [] else VDict c
                | _ => if want_list then VList [] else VDict []
                end in
              match set_path rest v child with
              | inr child' => inr (VDict (Py.set idx child' d))
              | inl e => inl e
              end
          | _ => inl Py.TypeError
          end
      end
  end.

(** [str(i) in d] for every [i] below [len(d)]. *)
Definition _has_contiguous_int_keys (d : list (string * value)) : bool :=
  forallb (fun i => Py.has (Py.str_of_nat i) d) (seq 0 (length d)).

(** [d[str(i)]] for [i] below [len(d)]; called only when the keys are
    there. *)
Definition _convert_dict_to_array (d : list (string * value)) : list value :=
  flat_map (fun i => match Py.get (Py.str_of_nat i) d with
                     | Some v => [v]
                     | None => []
                     end)
           (seq 0 (length d)).

(** What [_convert_dicts_to_arrays] stores back under a key. *)
Fixpoint convert_value (v : value) : value :=
  match v with
  | VDict d =>
      if _has_contiguous_int_keys d then VList (_convert_dict_to_array d)
      else VDict (map (fun kv => (fst kv, convert_value (snd kv))) d)
  | _ => v
  end.

Definition _convert_dicts_to_arrays (d : list (string * value))
  : list (string * value) :=
  map (fun kv => (fst kv, convert_value (snd kv))) d.

(** One turn of the loop of [convert_array_args]. *)
Definition convert_step (final_args : list (string * value))
           (item : string * string) : Py.exn + list (string * value) :=
  let (key, val) := item in
  if Py.contains "[" key then
    let indices := map (Py.rstrip "]") (Py.split "[" key) in
    match set_path indices (VStr val) (VDict final_args) with
    | inr (VDict d) => inr d
    | inr _ => inl Py.TypeError
    | inl e => inl e
    end
  else inr (Py.set key (VStr val) final_args).

Fixpoint convert_loop (items : list (string * string))
         (final_args : list (string * value))
  : Py.exn + list (string * value) :=
  match items with
  | [] => inr final_args
  | item :: rest =>
      match convert_step final_args item with
      | inr final_args' => convert_loop rest final_args'
      | inl e => inl e
      end
  end.

(** [UrlHelper.convert_array_args]. *)
Definition convert_array_args (args : Py.dict string)
  : Py.exn + list (string * value) :=
  match convert_loop args [] with
  | inr final_args => inr (_convert_dicts_to_arrays final_args)
  | inl e => inl e
  end.

(** The flattening the specification speaks of, in its words: a nested
    structure becomes keys of the form [a[b][c][]], a map adding its key
    in brackets and a list an empty pair of brackets. *)
Fixpoint flatten_value (key : string) (v : value) : list (string * string) :=
  match v with
  | VStr s => [(key, s)]
  | VList l => flat_map (fun x => flatten_value (key ++ "[]") x) l
  | VDict d =>
      flat_map (fun kv => flatten_value (key ++ "[" ++ fst kv ++ "]") (snd kv)) d
  end.

Definition flatten (d : list (string * value)) : list (string * string) :=
  flat_map (fun kv => flatten_value (fst kv) (snd kv)) d.

(** [dict(items)]: the flat argument map with these items. *)
Definition as_dict (items : list (string * string)) : Py.dict string :=
  Py.update items [].

(** The structures for which flattening can be undone.  Every list holds
    exactly one string; every map below the top is non-empty and is not
    one that the converter turns into a list; the keys of a map are
    distinct and free of brackets; keys below the top are non-empty. *)
Definition bracket_free (k : string) : bool :=
  negb (Py.contains "[" k) && negb (Py.contains "]" k).

Fixpoint distinct (l : list string) : bool :=
  match l with
  | [] => true
  | x :: r => negb (Py.mem x r) && distinct r
  end.

Fixpoint invertible (v : value) : bool :=
  match v with
  | VStr _ => true
  | VList l => match l with [VStr _] => true | _ => false end
  | VDict d =>
      negb (_has_contiguous_int_keys d)
      && distinct (map fst d)
      && forallb (fun kv => bracket_free (fst kv)
                            && negb (is_empty_str (fst kv))
                            && invertible (snd kv)) d
  end.

Definition invertible_args (d : list (string * value)) : bool :=
  distinct (map fst d)
  && forallb (fun kv => bracket_free (fst kv) && invertible (snd kv)) d.

(** The leaves of a structure with the indices that lead to them, and the
    bracket writing of a list of indices. *)
Fixpoint paths (v : value) : list (list string * string) :=
  match v with
  | VStr s => [([], s)]
  | VList l =>
      flat_map (fun x => map (fun ps => (EmptyString :: fst ps, snd ps))
                             (paths x)) l
  | VDict d =>
      flat_map (fun kv => map (fun ps => (fst kv :: fst ps, snd ps))
                              (paths (snd kv))) d
  end.

Fixpoint enc (p : list string) : string :=
  match p with
  | [] => EmptyString
  | i :: r => ("[" ++ i ++ "]" ++ enc r)%string
  end.

(** One turn of the loop of [convert_array_args] for a bracketed key, by
    the indices of the key. *)
Definition ins (d : list (string * value)) (ps : list string * string)
  : Py.exn + list (string * value) :=
  match set_path (fst ps) (VStr (snd ps)) (VDict d) with
  | inr (VDict d') => inr d'
  | inr _ => inl Py.TypeError
  | inl e => inl e
  end.

Fixpoint ins_all (items : list (list string * string))
         (d : list (string * value)) : Py.exn + list (string * value) :=
  match items with
  | [] => inr d
  | ps :: rest =>
      match ins d ps with
      | inr d' => ins_all rest d'
      | inl e => inl e
      end
  end.

Arguments ins : simpl never.

Definition starts_nonempty (ps : list string * string) : Prop :=
  exists k' rest, fst ps = k' :: rest /\ is_empty_str k' = false.

Definition is_leaf (v : value) : bool :=
  match v with VStr _ => true | _ => false end.

Definition good_path (v : value) (ps : list string * string) : Prop :=
  Forall (fun j => bracket_free j = true) (fst ps)
  /\ (is_leaf v = false -> fst ps <> []).

(** The keys of the flattening are pairwise distinct: each is the writing
    of a different list of indices. *)
Definition decode (key : string) : list string :=
  if Py.contains "[" key then map (Py.rstrip "]") (Py.split "[" key)
  else [key].

End UrlHelper.

(** ** The request builder ([HitArgsGenerator] and its rules) *)

Module Builder.

Import Recorder.
Local Open Scope string_scope.

Definition TRACKING_CLIENT_VERSION : string := "4.1.0".
Definition TRACKING_CLIENT_NAME : string := "wla".

Record Options : Type := mkOptions {
  replay_tracking : bool;
  enable_bots : bool;
  title_category_delimiter : string;
  debug_tracker : bool;
  reverse_dns : bool
}.

(** The attributes of a [Hit] that the rules read.  [cdt] is the date as
    [date_to_piwik] writes it; [generation_time_milli] is a float, kept
    here as the rational it denotes. *)
Record Hit : Type := mkHit {
  host : option string;
  referrer : string;
  status : string;
  ip : string;
  user_agent : string;
  cdt : string;
  args : Py.dict argval;
  is_download : bool;
  is_error : bool;
  is_redirect : bool;
  generation_time_milli : Q;
  event_category : option string;
  event_action : option string;
  event_name : option string;
  length : Z
}.

Record HitArgsConfig : Type := mkHitArgsConfig {
  hit : Hit;
  path : string;
  site_id : string;
  main_url : option string
}.

Definition arg_map : Type := Py.dict argval.

(** [json.dumps] of a string, with the default [ensure_ascii]. *)
Definition dq : string := String (ascii_of_nat 34) EmptyString.
Definition bs : string := String (ascii_of_nat 92) EmptyString.

Definition json_escape_char (c : ascii) : string :=
  let n := nat_of_ascii c in
  if (n =? 34)%nat then bs ++ dq
  else if (n =? 92)%nat then bs ++ bs
  else if (n =? 10)%nat then bs ++ "n"
  else if (n =? 13)%nat then bs ++ "r"
  else if (n =? 9)%nat then bs ++ "t"
  else if (n =? 8)%nat then bs ++ "b"
  else if (n =? 12)%nat then bs ++ "f"
  else if ((n <? 32) || (126 <? n))%nat then
    bs ++ "u00" ++ String (Py.hex_lower (n / 16))
                          (String (Py.hex_lower (n mod 16)) EmptyString)
  else String c EmptyString.

Fixpoint json_escape (s : string) : string :=
  match s with
  | EmptyString => EmptyString
  | String c s' => json_escape_char c ++ json_escape s'
  end.

Definition json_string (s : string) : string := dq ++ json_escape s ++ dq.

(** [json.dumps] of a dictionary of custom variables. *)
Definition json_dumps_cvars (cv : list (Z * (string * string))) : string :=
  "{" ++ String.concat ", "
           (map (fun e => (json_string (Py.str_of_Z (fst e)) ++ ": ["
                           ++ json_string (fst (snd e)) ++ ", "
                           ++ json_string (snd (snd e)) ++ "]")%string) cv)
      ++ "}".

(** Truth of an optional string: neither [None] nor empty. *)
Definition truthy (o : option string) : bool :=
  match o with
  | Some (String _ _) => true
  | _ => false
  end.

Section Rules.

Variable opts : Options.

(** [urllib.parse.urlparse(url).scheme]. *)
Variable url_scheme : string -> string.

(** A rule: [execute(args_config, initial_args)] on a non-empty map
    works on the map it is given and returns it. *)
Definition rule : Type := HitArgsConfig -> arg_map -> Py.exn + arg_map.

Definition _get_host_with_protocol (host : string) (main_url : option string)
  : Py.exn + string :=
  if negb (Py.contains "://" host) then
    match main_url with
    | Some u => inr (url_scheme u ++ "://" ++ host)
    | None => inl Py.TypeError
    end
  else inr host.

Definition ReplayTrackingRule : rule := fun args_config args =>
  if replay_tracking opts then inr (Py.set "rec" (AStr "0") args)
  else
    let url_prefix : Py.exn + option string :=
      match host (hit args_config) with
      | Some h =>
          match _get_host_with_protocol h (main_url args_config) with
          | inr p => inr (Some p)
          | inl e => inl e
          end
      | None => inr (main_url args_config)
      end in
    match url_prefix with
    | inl e => inl e
    | inr url_prefix =>
        let lead : Py.exn + string :=
          if prefix "/" (path args_config) then
            match url_prefix with
            | Some p => inr p
            | None => inl Py.TypeError
            end
          else inr EmptyString in
        match lead with
        | inl e => inl e
        | inr lead =>
            let url := lead ++ Py.take 1024 (path args_config) in
            let args := Py.set "url" (AStr url) args in
            let urlref := Py.take 1024 (referrer (hit args_config)) in
            if (0 <? String.length urlref)%nat
            then inr (Py.set "urlref" (AStr urlref) args)
            else inr args
        end
    end.

Definition set_download (args_config : HitArgsConfig) (args : arg_map)
  : Py.exn + arg_map :=
  if is_download (hit args_config) then
    match Py.get "url" args with
    | Some u => inr (Py.set "download" u args)
    | None => inl (Py.KeyError "url")
    end
  else inr args.

Definition set_bots (args : arg_map) : arg_map :=
  if enable_bots opts then Py.set "bots" (AStr "1") args else args.

Definition HitArgsRule : rule := fun args_config args =>
  let hit_args := Py.del "idsite" (Builder.args (hit args_config)) in
  let args := Py.update hit_args args in
  match set_download args_config args with
  | inl e => inl e
  | inr args => inr (set_bots args)
  end.

Definition DownloadsRule : rule := fun args_config args =>
  set_download args_config args.

Definition BotsRule : rule := fun args_config args => inr (set_bots args).

(** [urllib.parse.quote(args[key], "")]. *)
Definition quoted (key : string) (args : arg_map) : Py.exn + string :=
  match Py.get key args with
  | Some (AStr s) => inr (Py.quote s)
  | Some (ACvars _) => inl Py.TypeError
  | None => inl (Py.KeyError key)
  end.

Definition ErrorOrRedirectRule : rule := fun args_config args =>
  if is_error (hit args_config) || is_error (hit args_config) then
    let delim := title_category_delimiter opts in
    match quoted "url" args with
    | inl e => inl e
    | inr url =>
        let from : Py.exn + string :=
          if Py.has "urlref" args then
            match quoted "urlref" args with
            | inr r => inr (delim ++ "From = " ++ r)
            | inl e => inl e
            end
          else inr EmptyString in
        match from with
        | inl e => inl e
        | inr from =>
            inr (Py.set "action_name"
                        (AStr (status (hit args_config) ++ delim ++ "URL = "
                               ++ url ++ from)) args)
        end
    end
  else inr args.

(** [args[key] = json.dumps(args[key])] when the key holds a
    dictionary. *)
Definition dump_cvars (key : string) (args : arg_map) : arg_map :=
  match Py.get key args with
  | Some (ACvars cv) => Py.set key (AStr (json_dumps_cvars cv)) args
  | _ => args
  end.

Definition MiscHitItemsRule : rule := fun args_config args =>
  let h := hit args_config in
  let gt := generation_time_milli h in
  let args :=
    if (0 <? Qnum gt)%Z
    then Py.set "gt_ms" (AStr (Py.str_of_Z (Z.quot (Qnum gt) (Zpos (Qden gt))))) args
    else args in
  let args :=
    if truthy (event_category h) && truthy (event_action h) then
      let args := Py.set "e_c" (AStr (match event_category h with
                                      | Some s => s | None => EmptyString end)) args in
      let args := Py.set "e_a" (AStr (match event_action h with
                                      | Some s => s | None => EmptyString end)) args in
      match event_name h with
      | Some (String c s) => Py.set "e_n" (AStr (String c s)) args
      | _ => args
      end
    else args in
  let args :=
    if (length h =? 0)%Z then args
    else Py.set "bw_bytes" (AStr (Py.str_of_Z (length h))) args in
  let args := dump_cvars "cvar" args in
  let args := dump_cvars "_cvar" args in
  let args :=
    if negb (replay_tracking opts) then
      Py.set "ts_v" (AStr TRACKING_CLIENT_VERSION)
             (Py.set "ts_n" (AStr TRACKING_CLIENT_NAME) args)
    else args in
  inr (if debug_tracker opts then Py.set "debug" (AStr "1") args else args).

(** [HitArgsGenerator.generate]: [new_base.update(rule.execute(...))]
    for each rule in turn.  A rule handed a non-empty map returns that
    very map, so the update changes nothing; handed an empty map it
    builds a new one, which the update copies. *)
Fixpoint generate_from (rules : list rule) (args_config : HitArgsConfig)
         (new_base : arg_map) : Py.exn + arg_map :=
  match rules with
  | [] => inr new_base
  | r :: rest =>
      match r args_config new_base with
      | inl e => inl e
      | inr args =>
          generate_from rest args_config
            (match new_base with
             | [] => Py.update args []
             | _ => args
             end)
      end
  end.

Definition generate (base : arg_map) (rules : list rule)
           (args_config : HitArgsConfig) : Py.exn + arg_map :=
  generate_from rules args_config base.

(** The base map and the rules that [Recorder._get_hit_args] hands to
    the generator. *)
Definition base_args (args_config : HitArgsConfig) : arg_map :=
  let h := hit args_config in
  [("rec", AStr "1");
   ("apiv", AStr "1");
   ("cip", AStr (ip h));
   ("cdt", AStr (cdt h));
   ("idsite", AStr (site_id args_config));
   ("queuedtracking", AStr "0");
   ("dp", AStr (if reverse_dns opts then "0" else "1"));
   ("ua", AStr (user_agent h))].

Definition hit_rules : list rule :=
  [ReplayTrackingRule; HitArgsRule; DownloadsRule; BotsRule;
   ErrorOrRedirectRule; MiscHitItemsRule].

Definition generate_hit_args (args_config : HitArgsConfig)
  : Py.exn + arg_map :=
  generate (base_args args_config) hit_rules args_config.

End Rules.

(** The scheme of a URL that starts with letters followed by [://], which
    is what [urlparse] answers for such a URL. *)
Fixpoint scheme_of (url : string) : string :=
  match url with
  | EmptyString => EmptyString
  | String c rest =>
      if Ascii.eqb c ":" then EmptyString
      else String (Py.lower_char c) (scheme_of rest)
  end.

End Builder.

(** ** Replay mode: the arguments of a hit ([Parser.parse], lines 2980-2992) *)

Module Replay.

Import Recorder.

Inductive outcome : Type :=
| Args (a : Py.dict argval)        (* [hit.args] afterwards, the line goes on *)
| InvalidLine (reason : string)
| Raise (e : Py.exn).

(** [v.pop()]. *)
Definition pop (v : list string) : Py.exn + string :=
  match List.rev v with
  | [] => inl Py.IndexError
  | x :: _ => inr x
  end.

(** The generator [(k, v.pop()) for k, v in query_arguments.items()]. *)
Fixpoint popped (query_arguments : list (string * list string))
  : Py.exn + list (string * argval) :=
  match query_arguments with
  | [] => inr []
  | (k, v) :: rest =>
      match pop v with
      | inl e => inl e
      | inr x =>
          match popped rest with
          | inl e => inl e
          | inr items => inr ((k, AStr x) :: items)
          end
      end
  end.

(** [int(x)] of a stored value. *)
Definition int_of (x : argval) : Py.exn + Z :=
  match x with
  | AStr s =>
      match Py.int_of_str s with
      | Some z => inr z
      | None => inl Py.ValueError
      end
  | ACvars _ => inl Py.TypeError
  end.

(** The loop over the timestamp parameters. *)
Fixpoint shift_timestamps (params : list string) (seconds : Z)
         (a : Py.dict argval) : Py.exn + Py.dict argval :=
  match params with
  | [] => inr a
  | param :: rest =>
      match Py.get param a with
      | None => shift_timestamps rest seconds a
      | Some x =>
          match int_of x with
          | inl e => inl e
          | inr z =>
              shift_timestamps rest seconds
                (Py.set param (AStr (Py.str_of_Z (z + seconds))) a)
          end
      end
  end.

(** The timestamp parameters that follow the date. *)
Definition TIMESTAMP_PARAMS : list string :=
  ["_idts"; "_viewts"; "_ects"; "_refts"].

(** The items the generator yields when no list is empty. *)
Definition last_values (query_arguments : list (string * list string))
  : list (string * argval) :=
  map (fun kv => (fst kv, AStr (last (snd kv) EmptyString))) query_arguments.

Section ReplayArgs.

(** [urllib.parse.parse_qs]: each parameter with the list of its
    values, in the order of the query string. *)
Variable parse_qs : string -> list (string * list string).
Variable seconds_to_add_to_date : Z.

Definition replay_args (query_string : string) (hit_args : Py.dict argval)
  : outcome :=
  let query_arguments := parse_qs query_string in
  if negb (Py.has "idsite" query_arguments) then InvalidLine "missing idsite"
  else
    match popped query_arguments with
    | inl e => Raise e
    | inr items =>
        let a := Py.update items hit_args in
        if (seconds_to_add_to_date =? 0)%Z then Args a
        else
          match shift_timestamps TIMESTAMP_PARAMS
                                 seconds_to_add_to_date a with
          | inl e => Raise e
          | inr a' => Args a'
          end
    end.

End ReplayArgs.

(** [parse_qs] on a query string without percent escapes and without [+]:
    the string is cut at [&], each piece at its first [=]; pieces without
    [=] or with an empty value are dropped; the values of a name are
    collected in order. *)
Fixpoint cut_at (c : ascii) (s : string) : option (string * string) :=
  match s with
  | EmptyString => None
  | String a s' =>
      if Ascii.eqb a c then Some (EmptyString, s')
      else match cut_at c s' with
           | Some (l, r) => Some (String a l, r)
           | None => None
           end
  end.

Definition add_value (name val : string) (r : list (string * list string))
  : list (string * list string) :=
  match Py.get name r with
  | Some vs => Py.set name (vs ++ [val]) r
  | None => Py.set name [val] r
  end.

Definition parse_qs_plain (qs : string) : list (string * list string) :=
  fold_left (fun r piece =>
               match cut_at "=" piece with
               | Some (name, String c v) => add_value name (String c v) r
               | _ => r
               end)
            (Py.split "&" qs) [].

End Replay.

(** ** Sample inputs *)

(** A request for [/old] on [example.com] answered with status 301, with
    redirect tracking on: the filter chain has set [is_redirect]. *)
Definition c1_opts : Builder.Options :=
  Builder.mkOptions false false "/" false false.

Definition c1_hit (is_error is_redirect : bool) : Builder.Hit :=
  Builder.mkHit (Some "example.com") "http://ref.example/start" "301"
                "192.0.2.7" "Mozilla/5.0" "2000-10-10 20:55:36"
                [("cvar", Recorder.ACvars [(1%Z, ("HTTP-code", "301"))])]
                false is_error is_redirect 0%Q None None None 0%Z.

Definition c1_config (is_error is_redirect : bool) : Builder.HitArgsConfig :=
  Builder.mkHitArgsConfig (c1_hit is_error is_redirect) "/old" "7"
                          (Some "https://example.com").

(** A hit for [evil.example] asking for a PDF, when only [good.example] is
    configured and [pdf] is a download extension. *)
Definition c2_opts : Filters.Options :=
  Filters.mkOptions ["good.example"] false ["pdf"] [] false false false false
                    [] [].
Definition c2_hit : Filters.Hit :=
  Filters.mkHit (Some "evil.example") "/doc/report.pdf" "pdf" "Mozilla/5.0"
                "200" false false false false.
Definition c2_stats : Filters.Stats := Filters.mkStats 0 0 0 0 0 0 0.

(** The response [{"tracked":4,"message":"bad #5"}] to a payload of ten
    requests. *)
Definition c3_response : string :=
  "{" ++ Builder.dq ++ "tracked" ++ Builder.dq ++ ":4," ++ Builder.dq
      ++ "message" ++ Builder.dq ++ ":" ++ Builder.dq ++ "bad #5"
      ++ Builder.dq ++ "}".

Definition c3_json_loads (s : string) : option Http.json :=
  if String.eqb s c3_response
  then Some (Http.JObj [("tracked", Http.JInt 4);
                        ("message", Http.JStr "bad #5")])
  else None.

(** The answers of the formats for the line [2015] of a log whose header
    line is [#Fields: date]: the five W3C formats match it with one group
    (the date), the JSON format reads it as a number, nothing else
    matches. *)
Definition c4_try_match (name : string) : Detector.match_result :=
  if Py.mem name ["w3c_extended"; "amazon_cloudfront"; "incapsula_w3c";
                  "iis"; "shoutcast"]
  then Detector.ReMatch 1
  else if String.eqb name "nginx_json" then Detector.PlainTrue
  else Detector.NoMatch.

(** The answers for a line of the NCSA extended format: the common format
    matches with 8 groups, the extended one with 10. *)
Definition c4_ncsa_match (name : string) : Detector.match_result :=
  if String.eqb name "common" then Detector.ReMatch 8
  else if String.eqb name "ncsa_extended" then Detector.ReMatch 10
  else Detector.NoMatch.

(** A batch of four hits for two recorders, with a hash that is the length
    of the visitor id. *)
Definition c5_hash (v : Recorder.argval) : Z :=
  match v with
  | Recorder.AStr s => Z.of_nat (String.length s)
  | Recorder.ACvars cv => Z.of_nat (List.length cv)
  end.

Definition c5_hits : list Recorder.Hit :=
  [Recorder.mkHit 1 "10.0.0.1" []; Recorder.mkHit 2 "10.0.0.22" [];
   Recorder.mkHit 3 "10.0.0.1" []; Recorder.mkHit 4 "10.0.0.22" []].

(** A failing function and the settings of the command-line defaults. *)
Definition c6_config : option Http.Options := Some (Http.mkOptions 10 3).
Definition c6_func (errors : nat) (data : Http.payload nat)
  : Http.func_result :=
  Http.Raises (Http.HTTPError 503 "Service Unavailable" "busy").

(** [strptime] on the date of the first boundary scenario: 2000-10-10
    13:55:36 is 63106782936000000 microseconds after 0001-01-01. *)
Definition c7_strptime (date_string date_format : string)
  : option TimeHelper.datetime :=
  if String.eqb date_string "10/Oct/2000:13:55:36"
     && String.eqb date_format "%d/%b/%Y:%H:%M:%S"
  then Some 63106782936000000%Z else None.

(* ================================================================== *)
(** * Part II: the properties *)
(* ================================================================== *)

(** ** The filter chain *)

Section FilterChain.

Import Filters.

Variable fnmatch : string -> string -> bool.
Variable opts : Options.

Lemma check_methods_eq :
  check_methods =
  ["check_download"; "check_hostname"; "check_http_error";
   "check_http_redirect"; "check_path"; "check_static";
   "check_user_agent"].
Proof. reflexivity. Qed.

Lemma run_checks_reject (m : string) (rest : list string)
      (h h' : Hit) (s s' : Stats) :
  call_check fnmatch opts m h s = Ret false h' s' ->
  run_checks fnmatch opts (m :: rest) h s = ([m], Ret false h' s').
Proof. intros E. simpl. rewrite E. reflexivity. Qed.

Lemma run_checks_accept (m : string) (rest : list string)
      (h h' : Hit) (s s' : Stats) :
  call_check fnmatch opts m h s = Ret true h' s' ->
  run_checks fnmatch opts (m :: rest) h s =
  (m :: fst (run_checks fnmatch opts rest h' s'),
   snd (run_checks fnmatch opts rest h' s')).
Proof.
  intros E. simpl. rewrite E.
  destruct (run_checks fnmatch opts rest h' s'); reflexivity.
Qed.

Lemma check_hostname_mismatch (h : Hit) (s : Stats) (hst : string) :
  host h = Some hst ->
  hostnames opts <> [] ->
  existsb (fnmatch hst) (hostnames opts) = false ->
  check_hostname fnmatch opts h s = Ret false h (incr_hostname_skipped s).
Proof.
  intros Hh Hne Hex. unfold check_hostname. rewrite Hh.
  destruct (hostnames opts) as [|p ps] eqn:E; [congruence|].
  rewrite Hex. reflexivity.
Qed.

(** C8.  [check_http_redirect] treats as a redirect exactly a status that
    starts with [3] and is not [304]: with redirect tracking on the hit is
    kept and marked [is_redirect], with it off the hit is dropped and the
    skipped-redirects counter goes up by one; a status [304], like every
    status that starts with another character, passes with the hit and
    the counters unchanged. *)
Theorem check_http_redirect_classifies (h : Hit) (s : Stats) :
  (redirect_status (status h) ->
   enable_http_redirects opts = true ->
   check_http_redirect opts h s = Ret true (set_is_redirect h) s
   /\ is_redirect (set_is_redirect h) = true)
  /\ (redirect_status (status h) ->
      enable_http_redirects opts = false ->
      check_http_redirect opts h s =
      Ret false h (incr_skipped_http_redirects s)
      /\ count_lines_skipped_http_redirects (incr_skipped_http_redirects s)
         = S (count_lines_skipped_http_redirects s))
  /\ (status h = "304" -> check_http_redirect opts h s = Ret true h s)
  /\ (forall c rest, status h = String c rest -> c <> "3"%char ->
      check_http_redirect opts h s = Ret true h s)
  /\ (forall b h' s', check_http_redirect opts h s = Ret b h' s' ->
      (b = false \/ h' <> h \/ s' <> s) -> redirect_status (status h)).
Proof.
  unfold check_http_redirect, redirect_status.
  repeat split.
  - destruct H as [[rest E] N]. apply String.eqb_neq in N.
    rewrite N, H0, E. reflexivity.
  - destruct H as [[rest E] N]. apply String.eqb_neq in N.
    rewrite N, H0, E. reflexivity.
  - intros E. rewrite E. reflexivity.
  - intros c rest E N. rewrite E. simpl.
    apply Ascii.eqb_neq in N. rewrite N. reflexivity.
  - destruct (status h) as [|c rest] eqn:E; simpl in H; [discriminate|].
    destruct (Ascii.eqb c "3") eqn:Ec.
    + apply Ascii.eqb_eq in Ec. subst c. eauto.
    + simpl in H. inversion H; subst. destruct H0 as [?|[?|?]]; congruence.
  - intros E. rewrite E in H. simpl in H. inversion H; subst.
    destruct H0 as [?|[?|?]]; congruence.
Qed.

(** C2, as the code has it.  [inspect.getmembers] hands the checks over
    sorted by name, so the chain runs download, hostname, HTTP error,
    HTTP redirect, path, static, user agent; a check that rejects ends
    the chain.  For a hit whose host matches none of the configured
    patterns the chain stops at the hostname check, after the download
    check alone has run: that check has marked the hit [is_download] and
    counted it when the extension is a configured download extension. *)
Theorem filter_chain_order (h : Hit) (s : Stats) (hst : string) :
  host h = Some hst ->
  hostnames opts <> [] ->
  existsb (fnmatch hst) (hostnames opts) = false ->
  check_methods =
    ["check_download"; "check_hostname"; "check_http_error";
     "check_http_redirect"; "check_path"; "check_static";
     "check_user_agent"]
  /\ (forall m rest h0 s0 h' s',
         call_check fnmatch opts m h0 s0 = Ret false h' s' ->
         run_checks fnmatch opts (m :: rest) h0 s0 = ([m], Ret false h' s'))
  /\ (Py.mem (extension h) (download_extensions opts) = true ->
      run_filter_chain fnmatch opts h s =
      (["check_download"; "check_hostname"],
       Ret false (set_is_download h)
           (incr_hostname_skipped (incr_downloads s))))
  /\ (Py.mem (extension h) (download_extensions opts) = false ->
      Py.mem (extension h) DOWNLOAD_EXTENSIONS = true ->
      run_filter_chain fnmatch opts h s =
      (["check_download"], Ret false h (incr_skipped_downloads s)))
  /\ (Py.mem (extension h) (download_extensions opts) = false ->
      Py.mem (extension h) DOWNLOAD_EXTENSIONS = false ->
      run_filter_chain fnmatch opts h s =
      (["check_download"; "check_hostname"],
       Ret false h (incr_hostname_skipped s))).
Proof.
  intros Hh Hne Hex.
  split; [reflexivity|].
  split; [intros; now apply run_checks_reject|].
  unfold run_filter_chain. rewrite check_methods_eq.
  repeat split.
  - intros Hd.
    rewrite (run_checks_accept _ _ h (set_is_download h) s (incr_downloads s)).
    + rewrite (run_checks_reject _ _ _ (set_is_download h) _
                 (incr_hostname_skipped (incr_downloads s))); [reflexivity|].
      change (call_check fnmatch opts "check_hostname")
        with (check_hostname fnmatch opts).
      now apply check_hostname_mismatch with (hst := hst).
    + change (call_check fnmatch opts "check_download")
        with (check_download opts).
      unfold check_download. rewrite Hd. reflexivity.
  - intros Hd HD.
    apply run_checks_reject.
    change (call_check fnmatch opts "check_download")
      with (check_download opts).
    unfold check_download. rewrite Hd, HD. reflexivity.
  - intros Hd HD.
    rewrite (run_checks_accept _ _ h h s s).
    + rewrite (run_checks_reject _ _ _ h _ (incr_hostname_skipped s));
        [reflexivity|].
      change (call_check fnmatch opts "check_hostname")
        with (check_hostname fnmatch opts).
      now apply check_hostname_mismatch with (hst := hst).
    + change (call_check fnmatch opts "check_download")
        with (check_download opts).
      unfold check_download. rewrite Hd, HD. reflexivity.
Qed.

End FilterChain.

(** C2 as stated fails: the chain does not start with the hostname check,
    and the hit of another host reaches the download check, which marks it
    and counts it before the hostname check rejects it. *)
Lemma filter_chain_order_counterexample :
  existsb (Py.fnmatch "evil.example") (Filters.hostnames c2_opts) = false
  /\ Filters.check_methods <>
     ["check_hostname"; "check_static"; "check_download"; "check_user_agent";
      "check_http_error"; "check_http_redirect"; "check_path"]
  /\ Filters.run_filter_chain Py.fnmatch
                              c2_opts c2_hit c2_stats =
     (["check_download"; "check_hostname"],
      Filters.Ret false
        (Filters.mkHit (Some "evil.example") "/doc/report.pdf" "pdf"
                       "Mozilla/5.0" "200" true false false false)
        (Filters.mkStats 1 0 1 0 0 0 0)).
Proof.
  split; [reflexivity|]. split; [discriminate|]. reflexivity.
Qed.

Lemma filter_chain_order_witness :
  Filters.run_filter_chain Py.fnmatch
                           c2_opts c2_hit c2_stats =
  (["check_download"; "check_hostname"],
   Filters.Ret false (Filters.set_is_download c2_hit)
               (Filters.incr_hostname_skipped (Filters.incr_downloads c2_stats))).
Proof.
  refine (proj1 (proj2 (proj2 (filter_chain_order
            Py.fnmatch c2_opts c2_hit c2_stats
            "evil.example" _ _ _))) _).
  - reflexivity.
  - discriminate.
  - reflexivity.
  - reflexivity.
Defined.

Lemma check_http_redirect_classifies_witness :
  Filters.check_http_redirect
    (Filters.mkOptions [] false [] [] false false false true [] [])
    (Filters.mkHit None "/old" "old" "Mozilla/5.0" "301"
                   false false false false) c2_stats
  = Filters.Ret true
      (Filters.mkHit None "/old" "old" "Mozilla/5.0" "301"
                     false false false true) c2_stats.
Proof.
  refine (proj1 (proj1 (check_http_redirect_classifies
            (Filters.mkOptions [] false [] [] false false false true [] [])
            (Filters.mkHit None "/old" "old" "Mozilla/5.0" "301"
                           false false false false) c2_stats) _ _)).
  - split; [exists "01"; reflexivity | discriminate].
  - reflexivity.
Defined.

(** ** Format detection *)

Section FormatDetection.

Import Detector.

Variable try_match : string -> match_result.

Lemma detect_inv_step (seen : list string) (st : option string * nat)
      (x : string) :
  (x <> "ovh" -> try_match x <> PlainTrue) ->
  detect_inv try_match seen st ->
  detect_inv try_match (seen ++ [x]) (check_step try_match st x).
Proof.
  intros Hx [Hmax Hcur]. unfold check_step.
  assert (Hkeep : detect_inv try_match (seen ++ [x]) st ->
                  detect_inv try_match (seen ++ [x]) st) by auto.
  assert (Hsame : (x = "ovh" \/ try_match x = NoMatch
                   \/ exists g, try_match x = ReMatch g /\ g <= snd st) ->
                  detect_inv try_match (seen ++ [x]) st).
  { intros Hc. split.
    - intros m g Hin Hm Hg. apply in_app_or in Hin.
      destruct Hin as [Hin|[->|[]]]; [eauto|].
      destruct Hc as [->|[E|[g' [E Hle]]]]; [congruence|congruence|].
      rewrite E in Hg. inversion Hg; subst. exact Hle.
    - destruct (fst st) as [n|]; [|exact Hcur].
      destruct Hcur as (pre & post & E & Hn & Hg & Hpos & Hpre).
      exists pre, (post ++ [x]). rewrite E, <- app_assoc. simpl. auto. }
  destruct (String.eqb x "ovh") eqn:Eo.
  - apply String.eqb_eq in Eo. auto.
  - apply String.eqb_neq in Eo.
    destruct (try_match x) as [|g|] eqn:Em.
    + auto.
    + destruct (snd st <? g)%nat eqn:El.
      * apply Nat.ltb_lt in El. split; simpl.
        -- intros m g' Hin Hm Hg. apply in_app_or in Hin.
           destruct Hin as [Hin|[->|[]]].
           ++ specialize (Hmax m g' Hin Hm Hg). lia.
           ++ rewrite Em in Hg. inversion Hg. lia.
        -- exists seen, []. repeat split; auto; try lia.
           intros m g' Hin Hm Hg. specialize (Hmax m g' Hin Hm Hg). lia.
      * apply Nat.ltb_ge in El. apply Hsame. right. right. eauto.
    + exfalso. now apply Hx.
Qed.

Lemma detect_inv_fold (rest seen : list string) (st : option string * nat) :
  (forall x, In x rest -> x <> "ovh" -> try_match x <> PlainTrue) ->
  detect_inv try_match seen st ->
  detect_inv try_match (seen ++ rest) (fold_left (check_step try_match) rest st).
Proof.
  revert seen st. induction rest as [|x rest IH]; intros seen st Hr Hi.
  - rewrite app_nil_r. exact Hi.
  - simpl.
    replace (seen ++ x :: rest) with ((seen ++ [x]) ++ rest)
      by (rewrite <- app_assoc; reflexivity).
    apply IH.
    + intros y Hy. apply Hr. now right.
    + apply detect_inv_step; [|exact Hi]. apply Hr. now left.
Qed.

(** A match without [groups] takes the selection whatever was selected
    before, and keeps it when nothing matches afterwards. *)
Lemma check_step_plain_true (st : option string * nat) (x : string) :
  x <> "ovh" -> try_match x = PlainTrue ->
  check_step try_match st x = (Some x, snd st).
Proof.
  intros Hx E. unfold check_step.
  apply String.eqb_neq in Hx. rewrite Hx, E. reflexivity.
Qed.

Lemma check_step_idle (rest : list string) (st : option string * nat) :
  (forall m, In m rest -> m = "ovh" \/ try_match m = NoMatch) ->
  fold_left (check_step try_match) rest st = st.
Proof.
  revert st. induction rest as [|x rest IH]; intros st H; [reflexivity|].
  simpl. rewrite IH by (intros; apply H; now right).
  unfold check_step. destruct (H x (or_introl eq_refl)) as [->|E].
  - reflexivity.
  - rewrite E. destruct (String.eqb x "ovh"); reflexivity.
Qed.


End FormatDetection.



(** ** Sharding *)

Section Sharding.

Import Recorder.

Variable hash : argval -> Z.
Variable replay_tracking : bool.

Lemma worker_lt (n : nat) (h : Hit) :
  0 < n -> worker hash replay_tracking n h < n.
Proof.
  intros Hn. unfold worker.
  assert (0 <= get_visitor_id_hash hash replay_tracking h mod Z.of_nat n
          < Z.of_nat n)%Z by (apply Z.mod_pos_bound; lia).
  lia.
Qed.

Lemma append_at_length {A} (i : nat) (x : A) (ls : list (list A)) :
  List.length (append_at i x ls) = List.length ls.
Proof.
  revert i. induction ls as [|l ls IH]; intros [|i]; simpl; auto.
Qed.

Lemma append_at_nth {A} (i j : nat) (x : A) (ls : list (list A)) :
  i < List.length ls ->
  nth j (append_at i x ls) [] =
  if Nat.eqb j i then nth j ls [] ++ [x] else nth j ls [].
Proof.
  revert i j. induction ls as [|l ls IH]; intros i j Hi; simpl in Hi.
  - lia.
  - destruct i as [|i], j as [|j]; simpl; auto.
    apply IH. lia.
Qed.

Lemma distribute_spec (n : nat) (all_hits : list Hit) :
  0 < n ->
  forall hits_by_client,
    List.length hits_by_client = n ->
    exists r,
      distribute hash replay_tracking n all_hits hits_by_client = inr r
      /\ List.length r = n
      /\ forall i, i < n ->
           nth i r [] =
           nth i hits_by_client []
           ++ filter (fun h => Nat.eqb (worker hash replay_tracking n h) i) all_hits.
Proof.
  intros Hn. induction all_hits as [|h rest IH]; intros hbc Hlen.
  - exists hbc. simpl. repeat split; auto.
    intros. now rewrite app_nil_r.
  - simpl. destruct n as [|n']; [lia|].
    fold (worker hash replay_tracking (S n') h).
    destruct (IH (append_at (worker hash replay_tracking (S n') h) h hbc)) as (r & E & Hl & Hnth).
    { now rewrite append_at_length. }
    exists r. repeat split; auto.
    intros i Hi. rewrite (Hnth i Hi).
    rewrite append_at_nth by (rewrite Hlen; now apply worker_lt).
    rewrite (Nat.eqb_sym (worker hash replay_tracking (S n') h) i).
    destruct (Nat.eqb i (worker hash replay_tracking (S n') h)).
    + now rewrite <- app_assoc.
    + reflexivity.
Qed.

Lemma put_all_length (qs : list queue) (bs : list (list Hit)) :
  List.length (put_all qs bs) = List.length qs.
Proof.
  revert bs. induction qs as [|q qs IH]; intros [|b bs]; simpl; auto.
Qed.

Lemma put_all_nth (qs : list queue) (bs : list (list Hit)) (i : nat) :
  List.length bs = List.length qs ->
  i < List.length qs ->
  nth i (put_all qs bs) [] = nth i qs [] ++ [nth i bs []].
Proof.
  revert bs i. induction qs as [|q qs IH]; intros [|b bs] i Hl Hi;
    simpl in *; try lia.
  destruct i as [|i]; [reflexivity|]. apply IH; lia.
Qed.

Lemma nth_repeat_nil {A} (n i : nat) : nth i (repeat (@nil A) n) [] = [].
Proof.
  revert i. induction n as [|n IH]; intros [|i]; simpl; auto.
Qed.

(** C5.  With [N >= 1] recorders, [add_hits] puts exactly one item on
    each recorder's queue: for recorder [i], the hits of the batch whose
    [abs(hash(visitor id)) mod N] is [i], in the order of the batch.
    Every hit has exactly one such [i].  The visitor id is the IP, or in
    replay mode the first present of the arguments [uid], [cid], [_id],
    [cip] (the IP when none is present). *)
Theorem add_hits_shards (recorders : list queue) (all_hits : list Hit) :
  recorders <> [] ->
  let n := List.length recorders in
  exists queues,
    add_hits hash replay_tracking recorders all_hits = inr queues
    /\ List.length queues = n
    /\ (forall i, i < n ->
          nth i queues [] =
          nth i recorders []
          ++ [filter (fun h => Nat.eqb (worker hash replay_tracking n h) i) all_hits])
    /\ (forall h, In h all_hits ->
          worker hash replay_tracking n h < n
          /\ forall i, In h (filter (fun h => Nat.eqb (worker hash replay_tracking n h) i) all_hits)
                       <-> i = worker hash replay_tracking n h)
    /\ (forall h,
          worker hash replay_tracking n h =
          Z.to_nat (Z.abs (hash (visitor_id replay_tracking h))
                    mod Z.of_nat n))
    /\ (forall h,
          visitor_id replay_tracking h =
          if replay_tracking then
            match Py.get "uid" (args h), Py.get "cid" (args h),
                  Py.get "_id" (args h), Py.get "cip" (args h) with
            | Some v, _, _, _ => v
            | None, Some v, _, _ => v
            | None, None, Some v, _ => v
            | None, None, None, Some v => v
            | None, None, None, None => AStr (ip h)
            end
          else AStr (ip h)).
Proof.
  intros Hne n.
  assert (Hn : 0 < n) by (subst n; destruct recorders; simpl; [congruence|lia]).
  destruct (distribute_spec n all_hits Hn (repeat [] n))
    as (r & E & Hl & Hnth); [apply repeat_length|].
  exists (put_all recorders r). unfold add_hits. fold n. rewrite E.
  repeat split.
  - apply put_all_length.
  - intros i Hi. rewrite put_all_nth by (fold n; lia).
    rewrite (Hnth i Hi), nth_repeat_nil. reflexivity.
  - now apply worker_lt.
  - intros Hin. apply filter_In in Hin. destruct Hin as [_ Heq].
    apply Nat.eqb_eq in Heq. now symmetry.
  - intros ->. apply filter_In. split; [assumption|apply Nat.eqb_refl].
  - intros h. unfold visitor_id. destruct replay_tracking; [|reflexivity].
    simpl. destruct (Py.get "uid" (args h)); [reflexivity|].
    destruct (Py.get "cid" (args h)); [reflexivity|].
    destruct (Py.get "_id" (args h)); [reflexivity|].
    destruct (Py.get "cip" (args h)); reflexivity.
Qed.

End Sharding.

Lemma add_hits_shards_witness :
  exists queues,
    Recorder.add_hits c5_hash false [[]; []] c5_hits = inr queues
/\ nth 0 queues [] =
   [[Recorder.mkHit 1 "10.0.0.1" []; Recorder.mkHit 3 "10.0.0.1" []]]
/\ nth 1 queues [] =
   [[Recorder.mkHit 2 "10.0.0.22" []; Recorder.mkHit 4 "10.0.0.22" []]].
Proof.
  destruct (add_hits_shards c5_hash false [[]; []] c5_hits)
    as (q & E & _ & Hn & _).
  - discriminate.
  - exists q. split; [exact E|]. split.
    + rewrite (Hn 0) by (simpl; lia). reflexivity.
    + rewrite (Hn 1) by (simpl; lia). reflexivity.
Defined.

(** ** The retry wrapper and the failure callback *)

Section RetryWrapper.

Import Http.

Variable Req : Type.
Variable config : option Options.
Variable func : nat -> payload Req -> func_result.
Variable expected_response : option string.
Variable on_failure :
  option (string -> payload Req -> payload Req * (Py.exn + obj)).

Local Notation delay := (fst (retry_settings config)).
Local Notation attempts := (snd (retry_settings config)).
Local Notation loop := (call_loop config func expected_response on_failure).
Local Notation try_once :=
  (attempt config func expected_response on_failure).

Lemma handle_eq (again : nat -> payload Req -> run Req) (errors : nat)
      (e : exc) (data : payload Req) :
  handle config again errors e data =
  if (Z.of_nat (S errors) =? attempts)%Z
  then mkRun [] [] (ErrorRaised (snd (_parse_http_exception e))
                                (fst (_parse_http_exception e))) data
  else add_sleep delay (again (S errors) data).
Proof.
  unfold handle.
  destruct (_parse_http_exception e) as [code message].
  destruct (retry_settings config) as [d a]. reflexivity.
Qed.

Lemma attempt_raise_caught (again : nat -> payload Req -> run Req)
      (errors : nat) (e : exc) (data : payload Req) :
  func errors data = Raises e -> caught e = true ->
  try_once again errors data = handle config again errors e data.
Proof.
  intros E C. unfold attempt. rewrite E.
  destruct e; try reflexivity. discriminate.
Qed.

(** A turn of the loop either ends the call or, unless this was the last
    allowed failure, sleeps and goes round again. *)
Lemma attempt_cases (again : nat -> payload Req -> run Req) (errors : nat)
      (data : payload Req) :
  (exists f d, try_once again errors data = mkRun [] [] f d
               /\ f <> OutOfFuel)
  \/ (Z.of_nat (S errors) <> attempts
      /\ exists d, try_once again errors data
                   = add_sleep delay (again (S errors) d)).
Proof.
  assert (H : forall e d,
             (exists f d', handle config again errors e d = mkRun [] [] f d'
                           /\ f <> OutOfFuel)
             \/ (Z.of_nat (S errors) <> attempts
                 /\ exists d', handle config again errors e d
                               = add_sleep delay (again (S errors) d'))).
  { intros e d. rewrite handle_eq.
    destruct (Z.of_nat (S errors) =? attempts)%Z eqn:E.
    - left. eexists _, _. split; [reflexivity|discriminate].
    - right. apply Z.eqb_neq in E. split; [exact E|]. now exists d. }
  unfold attempt.
  destruct (func errors data) as [response|e].
  - destruct expected_response as [expected|].
    + destruct (String.eqb response expected).
      * left. eexists _, _. split; [reflexivity|discriminate].
      * destruct on_failure as [cb|].
        -- destruct (cb response data) as [d' [x|m]].
           ++ left. eexists _, _. split; [reflexivity|discriminate].
           ++ apply H.
        -- left. eexists _, _. split; [reflexivity|discriminate].
    + left. eexists _, _. split; [reflexivity|discriminate].
  - destruct e; try apply H.
    left. eexists _, _. split; [reflexivity|discriminate].
Qed.

Lemma attempt_ext (again1 again2 : nat -> payload Req -> run Req)
      (errors : nat) (data : payload Req) :
  (Z.of_nat (S errors) <> attempts ->
   forall d, again1 (S errors) d = again2 (S errors) d) ->
  try_once again1 errors data = try_once again2 errors data.
Proof.
  intros Hext.
  assert (H : forall e d, handle config again1 errors e d
                          = handle config again2 errors e d).
  { intros e d. rewrite !handle_eq.
    destruct (Z.of_nat (S errors) =? attempts)%Z eqn:E; [reflexivity|].
    apply Z.eqb_neq in E. now rewrite Hext. }
  unfold attempt.
  destruct (func errors data) as [response|e].
  - destruct expected_response as [expected|]; [|reflexivity].
    destruct (String.eqb response expected); [reflexivity|].
    destruct on_failure as [cb|]; [|reflexivity].
    destruct (cb response data) as [d' [x|m]]; [reflexivity|apply H].
  - destruct e; try apply H. reflexivity.
Qed.

Lemma loop_within (fuel errors : nat) (data : payload Req) :
  errors < Z.to_nat attempts ->
  Z.to_nat attempts - errors <= fuel ->
  run_within config (Z.to_nat attempts - errors) (loop fuel errors data).
Proof.
  revert errors data. induction fuel as [|fuel IH]; intros errors data He Hf.
  - lia.
  - simpl.
    destruct (attempt_cases (loop fuel) errors data)
      as [(f & d & E & Hfin)|(Hne & d & E)];
      rewrite E.
    + unfold run_within. simpl. repeat split; auto; lia.
    + assert (He' : S errors < Z.to_nat attempts) by lia.
      destruct (IH (S errors) d He' ltac:(lia)) as (H1 & H2 & H3 & H4).
      unfold run_within. simpl. repeat split; auto; try lia.
Qed.

Lemma loop_fuel (fuel1 fuel2 errors : nat) (data : payload Req) :
  errors < Z.to_nat attempts ->
  Z.to_nat attempts - errors <= fuel1 ->
  Z.to_nat attempts - errors <= fuel2 ->
  loop fuel1 errors data = loop fuel2 errors data.
Proof.
  revert fuel2 errors data.
  induction fuel1 as [|fuel1 IH]; intros fuel2 errors data He H1 H2; [lia|].
  destruct fuel2 as [|fuel2]; [lia|].
  simpl. f_equal.
  apply attempt_ext. intros Hne d. apply IH; lia.
Qed.

Lemma loop_exhausted (fuel errors : nat) (data : payload Req) :
  errors < Z.to_nat attempts ->
  Z.to_nat attempts - errors <= fuel ->
  (forall i, errors <= i < Z.to_nat attempts ->
             exists e, func i data = Raises e /\ caught e = true) ->
  exists e,
    func (Z.to_nat attempts - 1) data = Raises e
    /\ ending (loop fuel errors data)
       = ErrorRaised (snd (_parse_http_exception e))
                     (fst (_parse_http_exception e))
    /\ calls (loop fuel errors data)
       = repeat data (Z.to_nat attempts - errors)
    /\ data_after (loop fuel errors data) = data.
Proof.
  revert errors. induction fuel as [|fuel IH]; intros errors He Hf Hall; [lia|].
  destruct (Hall errors ltac:(lia)) as (e & Ee & Ce).
  simpl.
  pose proof (attempt_raise_caught (loop fuel) errors e data Ee Ce) as Ea.
  rewrite Ea, handle_eq.
  destruct (Z.of_nat (S errors) =? attempts)%Z eqn:E.
  - apply Z.eqb_eq in E.
    assert (Hm : Z.to_nat attempts = S errors) by lia.
    exists e. rewrite Hm. replace (S errors - 1) with errors by lia.
    replace (S errors - errors) with 1 by lia.
    simpl. auto.
  - apply Z.eqb_neq in E.
    destruct (IH (S errors) ltac:(lia) ltac:(lia)) as (e' & H1 & H2 & H3 & H4).
    { intros i Hi. apply Hall. lia. }
    exists e'. simpl. rewrite H2, H3, H4.
    repeat split; auto.
    replace (Z.to_nat attempts - errors)
      with (S (Z.to_nat attempts - S errors)) by lia.
    reflexivity.
Qed.


End RetryWrapper.

Section TrackingFailure.

Import Http.

Variable Req : Type.
Variable json_loads : string -> option json.

Lemma slice_from_nonneg (k : Z) (l : list Req) :
  (0 <= k)%Z -> slice_from k l = skipn (Z.to_nat k) l.
Proof.
  intros Hk. unfold slice_from.
  destruct (0 <=? k)%Z eqn:E; [reflexivity|].
  apply Z.leb_gt in E. lia.
Qed.

Lemma on_tracking_failure_tracked (response : string) (requests : list Req)
      (parsed : json) (k : Z) :
  json_loads response = Some parsed ->
  subscript parsed "tracked" = inr (JInt k) ->
  (0 <= k)%Z ->
  _on_tracking_failure json_loads response (Some requests) =
  (Some (skipn (Z.to_nat k) requests),
   match subscript parsed "message" with
   | inl e => inl e
   | inr m => inr (OJson m)
   end).
Proof.
  intros Ej Et Hk. unfold _on_tracking_failure. rewrite Ej, Et. simpl.
  rewrite slice_from_nonneg by assumption.
  destruct (subscript parsed "message"); reflexivity.
Qed.


End TrackingFailure.



(** ** Dates and time zones *)

Section DateParsing.

Import TimeHelper.

Variable strptime : string -> string -> option datetime.

Lemma digit_of_digit_char (d : nat) :
  d < 10 -> Py.digit_of (digit_char d) = Some (Z.of_nat d).
Proof.
  intros H. do 10 (destruct d as [|d]; [reflexivity|]). lia.
Qed.

Lemma digit_char_not_colon (d : nat) :
  d < 10 -> Ascii.eqb (digit_char d) ":" = false.
Proof.
  intros H. do 10 (destruct d as [|d]; [reflexivity|]). lia.
Qed.

Lemma digit_char_not_space (d : nat) :
  d < 10 -> Py.is_space (digit_char d) = false.
Proof.
  intros H. do 10 (destruct d as [|d]; [reflexivity|]). lia.
Qed.

Lemma strip_tz_field (negative : bool) (h1 h2 m1 m2 : nat) :
  h1 < 10 -> h2 < 10 -> m1 < 10 -> m2 < 10 ->
  Py.rstrip_space (Py.lstrip_space (tz_field negative h1 h2 m1 m2))
  = tz_field negative h1 h2 m1 m2.
Proof.
  intros H1 H2 H3 H4. unfold tz_field.
  replace (Py.lstrip_space
             (String (if negative then "-" else "+")%char
                (String (digit_char h1)
                   (String (digit_char h2)
                      (String (digit_char m1)
                         (String (digit_char m2) EmptyString))))))
    with (String (if negative then "-" else "+")%char
            (String (digit_char h1)
               (String (digit_char h2)
                  (String (digit_char m1)
                     (String (digit_char m2) EmptyString)))))
    by (destruct negative; reflexivity).
  cbn [Py.rstrip_space].
  rewrite (digit_char_not_space m2) by assumption. reflexivity.
Qed.

Lemma remove_colon_tz_field (negative : bool) (h1 h2 m1 m2 : nat) :
  h1 < 10 -> h2 < 10 -> m1 < 10 -> m2 < 10 ->
  Py.remove_char ":" (tz_field negative h1 h2 m1 m2)
  = tz_field negative h1 h2 m1 m2.
Proof.
  intros H1 H2 H3 H4. unfold tz_field.
  cbn [Py.remove_char].
  rewrite !digit_char_not_colon by assumption.
  destruct negative; reflexivity.
Qed.

Lemma int_of_tz_field (negative : bool) (h1 h2 m1 m2 : nat) :
  h1 < 10 -> h2 < 10 -> m1 < 10 -> m2 < 10 ->
  Py.int_of_str (tz_field negative h1 h2 m1 m2)
  = Some ((if negative then -1 else 1)
          * (100 * Z.of_nat (10 * h1 + h2) + Z.of_nat (10 * m1 + m2)))%Z.
Proof.
  intros H1 H2 H3 H4.
  assert (E : Py.unsigned_of_str
                (String (digit_char h1)
                   (String (digit_char h2)
                      (String (digit_char m1)
                         (String (digit_char m2) EmptyString))))
              = Some (100 * Z.of_nat (10 * h1 + h2)
                      + Z.of_nat (10 * m1 + m2))%Z).
  { unfold Py.unsigned_of_str. cbn [Py.digits_value].
    rewrite !digit_of_digit_char by assumption. f_equal. lia. }
  unfold Py.int_of_str. rewrite strip_tz_field by assumption.
  unfold tz_field.
  destruct negative.
  - change (Ascii.eqb "-" "+") with false.
    change (Ascii.eqb "-" "-") with true.
    cbv iota. rewrite E. simpl option_map. f_equal; lia.
  - change (Ascii.eqb "+" "+") with true.
    cbv iota. rewrite E. f_equal; lia.
Qed.

Lemma timedelta_from_tz_field (negative : bool) (h1 h2 m1 m2 : nat) :
  h1 < 10 -> h2 < 10 -> m1 < 10 -> m2 < 10 ->
  timedelta_from_timezone (tz_field negative h1 h2 m1 m2)
  = inr ((if negative then -1 else 1)
         * timedelta (Z.of_nat (10 * h1 + h2)) (Z.of_nat (10 * m1 + m2)) 0)%Z.
Proof.
  intros H1 H2 H3 H4. unfold timedelta_from_timezone.
  rewrite int_of_tz_field by assumption.
  set (hh := Z.of_nat (10 * h1 + h2)).
  set (mm := Z.of_nat (10 * m1 + m2)).
  assert (Hmm : (0 <= mm < 100)%Z) by (subst mm; lia).
  assert (Hhh : (0 <= hh)%Z) by (subst hh; lia).
  assert (Hd : ((100 * hh + mm) / 100 = hh)%Z).
  { symmetry. apply Z.div_unique with (r := mm); lia. }
  assert (Hm : ((100 * hh + mm) mod 100 = mm)%Z).
  { symmetry. apply Z.mod_unique with (q := hh); lia. }
  unfold timedelta. f_equal.
  destruct negative.
  - replace (Z.abs (-1 * (100 * hh + mm)))%Z with (100 * hh + mm)%Z by lia.
    rewrite Hd, Hm.
    destruct (0 <=? -1 * (100 * hh + mm))%Z eqn:E.
    + apply Z.leb_le in E. lia.
    + lia.
  - replace (Z.abs (1 * (100 * hh + mm)))%Z with (100 * hh + mm)%Z by lia.
    rewrite Hd, Hm.
    destruct (0 <=? 1 * (100 * hh + mm))%Z eqn:E.
    + lia.
    + apply Z.leb_gt in E. lia.
Qed.

Lemma add_inr (d t r : Z) : add d t = inr r -> r = (d + t)%Z.
Proof.
  unfold add. destruct (_ && _); intros E; inversion E. reflexivity.
Qed.

Lemma add_in_range (d t : Z) :
  (0 <= d + t <= DATETIME_MAX)%Z -> add d t = inr (d + t)%Z.
Proof.
  intros H. unfold add.
  destruct (0 <=? d + t)%Z eqn:E1; [|apply Z.leb_gt in E1; lia].
  destruct (d + t <=? DATETIME_MAX)%Z eqn:E2; [|apply Z.leb_gt in E2; lia].
  reflexivity.
Qed.

(** C7.  For a time zone field [+HHMM] or [-HHMM], the date stored for a
    line is [strptime(date_string, date_format)] plus
    [seconds_to_add_to_date] seconds, minus [HH] hours and [MM] minutes
    for [+HHMM] and plus as much for [-HHMM]: it is what the date part of
    [parse] yields whenever the two dates computed on the way are dates
    (years 1 to 9999), and nothing else is ever stored. *)
Theorem parse_date_timezone (date_format date_string : string)
        (seconds_to_add_to_date : Z) (d : datetime)
        (negative : bool) (h1 h2 m1 m2 : nat) :
  h1 < 10 -> h2 < 10 -> m1 < 10 -> m2 < 10 ->
  strptime date_string date_format = Some d ->
  let offset :=
    ((if negative then -1 else 1)
     * timedelta (Z.of_nat (10 * h1 + h2)) (Z.of_nat (10 * m1 + m2)) 0)%Z in
  let shifted := (d + timedelta 0 0 seconds_to_add_to_date)%Z in
  let stored := (shifted - offset)%Z in
  let result :=
    parse_date strptime date_format seconds_to_add_to_date date_string
               (Some (tz_field negative h1 h2 m1 m2)) in
  ((0 <= shifted <= DATETIME_MAX)%Z -> (0 <= stored <= DATETIME_MAX)%Z ->
   result = Dated stored)
  /\ (forall x, result = Dated x -> x = stored)
  /\ timedelta (Z.of_nat (10 * h1 + h2)) (Z.of_nat (10 * m1 + m2)) 0
     = ((Z.of_nat (10 * h1 + h2) * 3600 + Z.of_nat (10 * m1 + m2) * 60)
        * 1000000)%Z
  /\ timedelta 0 0 seconds_to_add_to_date
     = (seconds_to_add_to_date * 1000000)%Z.
Proof.
  intros H1 H2 H3 H4 Es offset shifted stored result.
  assert (Er : result =
               match add d (timedelta 0 0 seconds_to_add_to_date) with
               | inl e => Raise e
               | inr date =>
                   match add date (- offset)%Z with
                   | inl e => Raise e
                   | inr date' => Dated date'
                   end
               end).
  { unfold result, parse_date. rewrite Es.
    destruct (add d (timedelta 0 0 seconds_to_add_to_date)); [reflexivity|].
    rewrite remove_colon_tz_field by assumption.
    replace (String.eqb (tz_field negative h1 h2 m1 m2) EmptyString)
      with false by (destruct negative; reflexivity).
    rewrite timedelta_from_tz_field by assumption. reflexivity. }
  split; [|split; [|split]].
  - intros R1 R2. rewrite Er.
    rewrite (add_in_range d _ R1). fold shifted.
    rewrite add_in_range; unfold stored in *.
    + f_equal.
    + replace (shifted + - offset)%Z with (shifted - offset)%Z by lia.
      exact R2.
  - intros x Ex. rewrite Er in Ex.
    destruct (add d (timedelta 0 0 seconds_to_add_to_date)) as [e|date] eqn:E1;
      [discriminate|].
    destruct (add date (- offset)%Z) as [e|date'] eqn:E2; [discriminate|].
    inversion Ex; subst x.
    apply add_inr in E1. apply add_inr in E2.
    unfold stored, shifted. lia.
  - unfold timedelta. lia.
  - unfold timedelta. lia.
Qed.

End DateParsing.

(** With the zone [-0700] the stored date is 2000-10-10 20:55:36. *)
Lemma parse_date_timezone_witness :
  TimeHelper.parse_date c7_strptime "%d/%b/%Y:%H:%M:%S" 0
                        "10/Oct/2000:13:55:36" (Some "-0700")
  = TimeHelper.Dated 63106808136000000%Z.
Proof.
  refine (proj1 (parse_date_timezone c7_strptime "%d/%b/%Y:%H:%M:%S"
                   "10/Oct/2000:13:55:36" 0 63106782936000000%Z
                   true 0 7 0 0 _ _ _ _ _) _ _).
  - lia.
  - lia.
  - lia.
  - lia.
  - reflexivity.
  - vm_compute. split; discriminate.
  - vm_compute. split; discriminate.
Defined.

(** ** Dictionaries: reading after writing *)

Section DictFacts.

Variable V : Type.

Lemma get_set_same (k : string) (v : V) (d : Py.dict V) :
  Py.get k (Py.set k v d) = Some v.
Proof.
  induction d as [|[k' v'] d IH]; simpl.
  - now rewrite String.eqb_refl.
  - destruct (String.eqb k k') eqn:E; simpl; rewrite E; auto.
Qed.

Lemma get_set_other (k k' : string) (v : V) (d : Py.dict V) :
  k <> k' -> Py.get k (Py.set k' v d) = Py.get k d.
Proof.
  intros N. induction d as [|[k2 v2] d IH]; simpl.
  - apply String.eqb_neq in N. now rewrite N.
  - destruct (String.eqb k' k2) eqn:E; simpl.
    + apply String.eqb_eq in E. subst k2.
      apply String.eqb_neq in N. now rewrite N.
    + destruct (String.eqb k k2); auto.
Qed.

Lemma get_update_notin (k : string) (items : list (string * V))
      (d : Py.dict V) :
  ~ In k (map fst items) -> Py.get k (Py.update items d) = Py.get k d.
Proof.
  revert d. induction items as [|[k' v'] items IH]; intros d N; [reflexivity|].
  simpl in N. unfold Py.update in *. simpl.
  rewrite IH by tauto. apply get_set_other. intros ->. tauto.
Qed.

Lemma get_update_in (k : string) (v : V) (items : list (string * V))
      (d : Py.dict V) :
  NoDup (map fst items) -> In (k, v) items ->
  Py.get k (Py.update items d) = Some v.
Proof.
  revert d. induction items as [|[k' v'] items IH]; intros d Hn Hin; [easy|].
  simpl in Hn. inversion Hn as [|? ? Hnotin Hn']; subst.
  unfold Py.update in *. simpl. destruct Hin as [E|Hin].
  - inversion E; subst.
    change (fold_left (fun acc kv => Py.set (fst kv) (snd kv) acc) items
                      (Py.set k v d))
      with (Py.update items (Py.set k v d)).
    rewrite get_update_notin by assumption. apply get_set_same.
  - now apply IH.
Qed.

End DictFacts.

(** ** The request builder *)

Section RequestBuilder.

Import Recorder Builder.

Variable opts : Options.

(** What [ErrorOrRedirectRule] does for a hit marked [is_error]: the title
    of the specification. *)
Lemma error_rule_sets_title (args_config : HitArgsConfig) (args : arg_map)
      (url : string) :
  is_error (hit args_config) = true ->
  Py.get "url" args = Some (AStr url) ->
  (forall v, Py.get "urlref" args = Some v -> exists r, v = AStr r) ->
  ErrorOrRedirectRule opts args_config args =
  inr (Py.set "action_name"
         (AStr (status (hit args_config) ++ title_category_delimiter opts
                ++ "URL = " ++ Py.quote url
                ++ match Py.get "urlref" args with
                   | Some (AStr r) =>
                       title_category_delimiter opts ++ "From = " ++ Py.quote r
                   | _ => EmptyString
                   end)%string) args).
Proof.
  intros He Hu Hr. unfold ErrorOrRedirectRule, quoted, Py.has.
  rewrite He, Hu. simpl.
  destruct (Py.get "urlref" args) as [v|] eqn:E; [|reflexivity].
  destruct (Hr v eq_refl) as [r ->]. reflexivity.
Qed.

Lemma error_rule_skips (args_config : HitArgsConfig) (args : arg_map) :
  is_error (hit args_config) = false ->
  ErrorOrRedirectRule opts args_config args = inr args.
Proof.
  intros He. unfold ErrorOrRedirectRule. now rewrite He.
Qed.

End RequestBuilder.

(** C1 on the code.  [ErrorOrRedirectRule] tests [is_error] twice and
    [is_redirect] never: it leaves the map alone for every hit that is not
    marked [is_error].  The redirect hit above comes out of the rule chain
    without [action_name], while the same hit marked [is_error] gets the
    title of the specification. *)
Theorem error_or_redirect_rule_ignores_redirect :
  (forall opts args_config args,
      Builder.is_error (Builder.hit args_config) = false ->
      Builder.ErrorOrRedirectRule opts args_config args = inr args)
  /\ Builder.is_redirect (Builder.hit (c1_config false true)) = true
  /\ (exists a,
         Builder.generate_hit_args c1_opts Builder.scheme_of
                                   (c1_config false true) = inr a
         /\ Py.get "url" a = Some (Recorder.AStr "https://example.com/old")
         /\ Py.get "urlref" a = Some (Recorder.AStr "http://ref.example/start")
         /\ Py.get "action_name" a = None)
  /\ (exists a,
         Builder.generate_hit_args c1_opts Builder.scheme_of
                                   (c1_config true false) = inr a
         /\ Py.get "action_name" a =
            Some (Recorder.AStr
                    ("301/URL = https%3A%2F%2Fexample.com%2Fold"
                     ++ "/From = http%3A%2F%2Fref.example%2Fstart"))).
Proof.
  split; [intros; now apply error_rule_skips|].
  split; [reflexivity|].
  split; eexists; (split; [vm_compute; reflexivity|]); repeat split.
Qed.

(** ** Replay mode *)

Section ReplayMode.

Import Recorder Replay.

Variable parse_qs : string -> list (string * list string).
Variable seconds_to_add_to_date : Z.

Lemma pop_last (v : list string) :
  v <> [] -> pop v = inr (last v EmptyString).
Proof.
  intros N. destruct (exists_last N) as (l & x & ->).
  unfold pop. rewrite rev_app_distr. simpl. now rewrite last_last.
Qed.

Lemma popped_last_values (query_arguments : list (string * list string)) :
  (forall k vs, In (k, vs) query_arguments -> vs <> []) ->
  popped query_arguments = inr (last_values query_arguments).
Proof.
  induction query_arguments as [|[k vs] rest IH]; intros H; [reflexivity|].
  simpl. rewrite pop_last by (apply (H k); now left).
  rewrite IH by (intros k' vs' Hin; apply (H k'); now right).
  reflexivity.
Qed.

Lemma shift_timestamps_get (params : list string) (a a' : Py.dict argval) :
  NoDup params ->
  shift_timestamps params seconds_to_add_to_date a = inr a' ->
  forall k,
    (~ In k params -> Py.get k a' = Py.get k a)
    /\ (In k params ->
        match Py.get k a with
        | None => Py.get k a' = None
        | Some x =>
            exists z, int_of x = inr z
                      /\ Py.get k a' =
                         Some (AStr (Py.str_of_Z (z + seconds_to_add_to_date)))
        end).
Proof.
  revert a. induction params as [|p rest IH]; intros a Hn E k.
  - simpl in E. inversion E; subst. split; [reflexivity|intros []].
  - inversion Hn as [|? ? Hp Hn']; subst. simpl in E.
    destruct (Py.get p a) as [x|] eqn:Ep.
    + destruct (int_of x) as [e|z] eqn:Ez; [discriminate|].
      destruct (IH _ Hn' E k) as [IH1 IH2]. split.
      * intros Hk. simpl in Hk. rewrite IH1 by tauto.
        apply get_set_other. intros ->. tauto.
      * intros [->|Hk].
        -- rewrite Ep. exists z. split; [assumption|].
           rewrite IH1 by assumption. apply get_set_same.
        -- assert (Hkp : k <> p) by (intros ->; tauto).
           specialize (IH2 Hk). now rewrite get_set_other in IH2.
    + destruct (IH _ Hn' E k) as [IH1 IH2]. split.
      * intros Hk. simpl in Hk. apply IH1. tauto.
      * intros [->|Hk]; [|now apply IH2].
        rewrite Ep. rewrite IH1 by assumption. exact Ep.
Qed.

Lemma shift_timestamps_total (params : list string) (a : Py.dict argval) :
  NoDup params ->
  (forall k x, In k params -> Py.get k a = Some x ->
               exists z, int_of x = inr z) ->
  exists a', shift_timestamps params seconds_to_add_to_date a = inr a'.
Proof.
  revert a. induction params as [|p rest IH]; intros a Hn H.
  - eexists. reflexivity.
  - inversion Hn as [|? ? Hp Hn']; subst. simpl.
    destruct (Py.get p a) as [x|] eqn:Ep.
    + destruct (H p x (or_introl eq_refl) Ep) as [z Ez]. rewrite Ez.
      apply IH; [assumption|].
      intros k y Hk Ey.
      rewrite get_set_other in Ey by (intros ->; tauto).
      apply (H k y); [now right|assumption].
    + apply IH; [assumption|]. intros k y Hk. apply H. now right.
Qed.

Lemma timestamp_params_nodup : NoDup TIMESTAMP_PARAMS.
Proof.
  unfold TIMESTAMP_PARAMS.
  repeat (constructor; [simpl; intros H; repeat destruct H as [H|H];
                        discriminate || contradiction|]).
  constructor.
Qed.

(** C10, as the code has it.  In replay mode the arguments of an accepted
    hit map each parameter of the query string to the last element of the
    list [parse_qs] gives for it -- the single value when there is one --
    except that, when [seconds_to_add_to_date] is not zero, the parameters
    [_idts], [_viewts], [_ects] and [_refts] are mapped to the decimal
    writing of that last value read as an integer plus
    [seconds_to_add_to_date]. *)
Theorem replay_args_last_value (query_string : string)
        (hit_args : Py.dict argval) :
  let query_arguments := parse_qs query_string in
  NoDup (map fst query_arguments) ->
  (forall k vs, In (k, vs) query_arguments -> vs <> []) ->
  Py.has "idsite" query_arguments = true ->
  let result := replay_args parse_qs seconds_to_add_to_date query_string
                            hit_args in
  (forall a, result = Args a ->
     forall k vs, In (k, vs) query_arguments ->
       if (seconds_to_add_to_date =? 0)%Z || negb (Py.mem k TIMESTAMP_PARAMS)
       then Py.get k a = Some (AStr (last vs EmptyString))
       else exists z,
           Py.int_of_str (last vs EmptyString) = Some z
           /\ Py.get k a =
              Some (AStr (Py.str_of_Z (z + seconds_to_add_to_date))))
  /\ ((seconds_to_add_to_date = 0%Z
       \/ forall k x, In k TIMESTAMP_PARAMS ->
            Py.get k (Py.update (last_values query_arguments) hit_args)
            = Some x ->
            exists z, int_of x = inr z) ->
      exists a, result = Args a)
  /\ (forall v : string, last [v] EmptyString = v).
Proof.
  intros qa Hn Hne Hid result.
  assert (Er : result =
               if (seconds_to_add_to_date =? 0)%Z
               then Args (Py.update (last_values qa) hit_args)
               else match shift_timestamps TIMESTAMP_PARAMS
                            seconds_to_add_to_date
                            (Py.update (last_values qa) hit_args) with
                    | inl e => Raise e
                    | inr a' => Args a'
                    end).
  { unfold result, replay_args. fold qa. rewrite Hid. simpl negb. cbv iota.
    rewrite popped_last_values by assumption. reflexivity. }
  assert (Hget : forall k vs, In (k, vs) qa ->
            Py.get k (Py.update (last_values qa) hit_args)
            = Some (AStr (last vs EmptyString))).
  { intros k vs Hin. apply get_update_in.
    - unfold last_values. rewrite map_map. exact Hn.
    - unfold last_values.
      apply (in_map (fun kv => (fst kv, AStr (last (snd kv) EmptyString)))
                    qa (k, vs) Hin). }
  split; [|split].
  - intros a Ea k vs Hin. rewrite Er in Ea.
    destruct (seconds_to_add_to_date =? 0)%Z eqn:Ez.
    + inversion Ea; subst a. simpl. now apply Hget.
    + destruct (shift_timestamps _ _ _) as [e|a'] eqn:Es; [discriminate|].
      inversion Ea; subst a'.
      destruct (shift_timestamps_get _ _ _ timestamp_params_nodup Es k)
        as [H1 H2].
      destruct (Py.mem k TIMESTAMP_PARAMS) eqn:Em; cbn [orb negb].
      * assert (Hk : In k TIMESTAMP_PARAMS).
        { unfold Py.mem in Em. apply existsb_exists in Em.
          destruct Em as (x & Hx & Ex). apply String.eqb_eq in Ex. now subst. }
        specialize (H2 Hk). rewrite (Hget k vs Hin) in H2.
        destruct H2 as (z & Hz & Hg). exists z. split; [|exact Hg].
        simpl in Hz. destruct (Py.int_of_str (last vs EmptyString));
          inversion Hz; reflexivity.
      * rewrite H1; [now apply Hget|].
        intros Hk. assert (Py.mem k TIMESTAMP_PARAMS = true); [|congruence].
        unfold Py.mem. apply existsb_exists. exists k.
        split; [assumption|apply String.eqb_refl].
  - intros H. rewrite Er.
    destruct (seconds_to_add_to_date =? 0)%Z eqn:Ez; [eauto|].
    destruct H as [H|H]; [apply Z.eqb_neq in Ez; contradiction|].
    destruct (shift_timestamps_total TIMESTAMP_PARAMS _
                timestamp_params_nodup H) as [a' Ea].
    rewrite Ea. eauto.
  - reflexivity.
Qed.

End ReplayMode.

(** C10 as stated fails: with ten seconds to add, the parameter [_idts]
    given twice, as 5 and then as 7, is mapped to 17 and not to the 7 of
    its last occurrence. *)
Lemma replay_args_last_value_counterexample :
  Replay.parse_qs_plain "idsite=1&_idts=5&_idts=7"
  = [("idsite", ["1"]); ("_idts", ["5"; "7"])]
  /\ Replay.replay_args Replay.parse_qs_plain 10
                        "idsite=1&_idts=5&_idts=7" []
     = Replay.Args [("idsite", Recorder.AStr "1");
                    ("_idts", Recorder.AStr "17")].
Proof. split; reflexivity. Qed.

Lemma replay_args_last_value_witness :
  exists a,
    Replay.replay_args Replay.parse_qs_plain 0
                       "idsite=3&rec=1&uid=bob&uid=alice" [] = Replay.Args a
    /\ Py.get "uid" a = Some (Recorder.AStr "alice").
Proof.
  assert (Hn : NoDup ["idsite"; "rec"; "uid"]).
  { repeat (constructor; [simpl; intros K; repeat destruct K as [K|K];
                          discriminate || contradiction|]).
    constructor. }
  assert (Hv : forall (k : string) (vs : list string),
             In (k, vs) [("idsite", ["3"]); ("rec", ["1"]);
                         ("uid", ["bob"; "alice"])] -> vs <> []).
  { intros k vs [E|[E|[E|[]]]]; inversion E; discriminate. }
  destruct (replay_args_last_value Replay.parse_qs_plain 0
              "idsite=3&rec=1&uid=bob&uid=alice" [] Hn Hv eq_refl)
    as (Hval & Hex & _).
  destruct (Hex (or_introl eq_refl)) as [a Ea].
  exists a. split; [exact Ea|].
  exact (Hval a Ea "uid" ["bob"; "alice"]
              (or_intror (or_intror (or_introl eq_refl)))).
Defined.

(** ** PHP deep arrays *)

Section StringFacts.

Lemma append_nil_r (s : string) : (s ++ EmptyString)%string = s.
Proof. induction s as [|a s IH]; simpl; congruence. Qed.

Lemma append_assoc (s t u : string) :
  ((s ++ t) ++ u)%string = (s ++ (t ++ u))%string.
Proof. induction s as [|a s IH]; simpl; congruence. Qed.

Lemma has_char_cons (c a : ascii) (s : string) :
  Py.has_char c (String a s) = Ascii.eqb c a || Py.has_char c s.
Proof.
  unfold Py.has_char. simpl.
  destruct (ascii_dec c a) as [->|N].
  - rewrite Ascii.eqb_refl. now destruct s.
  - apply Ascii.eqb_neq in N. now rewrite N.
Qed.

Lemma has_char_nil (c : ascii) : Py.has_char c EmptyString = false.
Proof. reflexivity. Qed.

Lemma has_char_app (c : ascii) (s t : string) :
  Py.has_char c (s ++ t) = Py.has_char c s || Py.has_char c t.
Proof.
  induction s as [|a s IH]; [reflexivity|].
  simpl append. rewrite !has_char_cons, IH. now rewrite orb_assoc.
Qed.

Lemma split_without (sep : ascii) (s : string) :
  Py.has_char sep s = false -> Py.split sep s = [s].
Proof.
  induction s as [|a s IH]; intros H; [reflexivity|].
  rewrite has_char_cons in H. apply orb_false_iff in H. destruct H as [H1 H2].
  simpl. rewrite Ascii.eqb_sym, H1, (IH H2). reflexivity.
Qed.

Lemma split_at (sep : ascii) (s t : string) :
  Py.has_char sep s = false ->
  Py.split sep (s ++ String sep t) = s :: Py.split sep t.
Proof.
  induction s as [|a s IH]; intros H.
  - simpl. now rewrite Ascii.eqb_refl.
  - rewrite has_char_cons in H. apply orb_false_iff in H. destruct H as [H1 H2].
    simpl. rewrite Ascii.eqb_sym, H1, (IH H2). reflexivity.
Qed.

Lemma rstrip_without (c : ascii) (s : string) :
  Py.has_char c s = false -> Py.rstrip c s = s.
Proof.
  induction s as [|a s IH]; intros H; [reflexivity|].
  rewrite has_char_cons in H. apply orb_false_iff in H. destruct H as [H1 H2].
  simpl. rewrite (IH H2). rewrite Ascii.eqb_sym, H1. now destruct s.
Qed.

Lemma rstrip_closing (c : ascii) (s : string) :
  Py.has_char c s = false ->
  Py.rstrip c (s ++ String c EmptyString) = s.
Proof.
  induction s as [|a s IH]; intros H.
  - simpl. now rewrite Ascii.eqb_refl.
  - rewrite has_char_cons in H. apply orb_false_iff in H. destruct H as [H1 H2].
    simpl. rewrite (IH H2). rewrite Ascii.eqb_sym, H1. now destruct s.
Qed.

End StringFacts.

Section DeepArrays.

Import UrlHelper.

Lemma value_ind2 (P : value -> Prop) :
  (forall s, P (VStr s)) ->
  (forall l, Forall P l -> P (VList l)) ->
  (forall d, Forall (fun kv => P (snd kv)) d -> P (VDict d)) ->
  forall v, P v.
Proof.
  intros Hs Hl Hd. fix IH 1. intros [s|l|d].
  - apply Hs.
  - apply Hl. induction l as [|x l IHl]; constructor; [apply IH|exact IHl].
  - apply Hd. induction d as [|[k x] d IHd]; constructor; [apply IH|exact IHd].
Qed.

Lemma flatten_value_paths (v : value) :
  forall key,
    flatten_value key v =
    map (fun ps => ((key ++ enc (fst ps))%string, snd ps)) (paths v).
Proof.
  induction v as [s|l IH|d IH] using value_ind2; intros key.
  - simpl. now rewrite append_nil_r.
  - simpl. induction IH as [|x l Hx _ IHl]; [reflexivity|].
    simpl. rewrite map_app, IHl, Hx, map_map. f_equal.
    apply map_ext. intros [p s]. simpl. now rewrite append_assoc.
  - simpl. induction IH as [|[k x] d Hx _ IHd]; [reflexivity|].
    simpl. rewrite map_app, IHd. simpl in Hx. rewrite Hx, map_map. f_equal.
    apply map_ext. intros [p s]. simpl.
    rewrite !append_assoc. simpl. now rewrite !append_assoc.
Qed.

Lemma bracket_free_chars (i : string) :
  bracket_free i = true ->
  Py.has_char "[" i = false /\ Py.has_char "]" i = false.
Proof.
  unfold bracket_free, Py.has_char. intros H.
  apply andb_true_iff in H. destruct H as [H1 H2].
  apply negb_true_iff in H1. apply negb_true_iff in H2. auto.
Qed.

Lemma decode_indices (i : string) (r : list string) :
  Forall (fun j => bracket_free j = true) (i :: r) ->
  map (Py.rstrip "]") (Py.split "[" (i ++ "]" ++ enc r)) = i :: r.
Proof.
  revert i. induction r as [|j r IH]; intros i H.
  - inversion H as [|? ? Hi _]; subst.
    apply bracket_free_chars in Hi. destruct Hi as [Hi1 Hi2].
    change (i ++ "]" ++ enc [])%string with (i ++ "]")%string.
    rewrite split_without.
    + simpl. now rewrite rstrip_closing.
    + rewrite has_char_app, Hi1. reflexivity.
  - inversion H as [|? ? Hi Hr]; subst.
    apply bracket_free_chars in Hi. destruct Hi as [Hi1 Hi2].
    change (enc (j :: r)) with (String "[" (j ++ "]" ++ enc r)).
    rewrite <- (append_assoc i "]").
    rewrite split_at by (rewrite has_char_app, Hi1; reflexivity).
    simpl map. rewrite rstrip_closing by assumption.
    f_equal. now apply IH.
Qed.

Lemma decode_key (k : string) (p : list string) :
  bracket_free k = true ->
  Forall (fun j => bracket_free j = true) p ->
  p <> [] ->
  Py.contains "[" (k ++ enc p) = true
  /\ map (Py.rstrip "]") (Py.split "[" (k ++ enc p)) = k :: p.
Proof.
  intros Hk Hp Hne. destruct p as [|i r]; [congruence|].
  apply bracket_free_chars in Hk. destruct Hk as [Hk1 Hk2].
  split.
  - change (Py.has_char "[" (k ++ enc (i :: r)) = true).
    rewrite has_char_app. simpl enc. rewrite has_char_cons.
    rewrite Ascii.eqb_refl. simpl. now rewrite orb_true_r.
  - change (enc (i :: r)) with (String "[" (i ++ "]" ++ enc r)).
    rewrite split_at by assumption.
    simpl map. rewrite rstrip_without by assumption.
    f_equal. now apply decode_indices.
Qed.


(** More on dictionaries. *)
Lemma set_absent {V} (k : string) (v : V) (d : Py.dict V) :
  Py.get k d = None -> Py.set k v d = d ++ [(k, v)].
Proof.
  induction d as [|[k' v'] d IH]; simpl; [reflexivity|].
  destruct (String.eqb k k'); [discriminate|]. intros H. now rewrite IH.
Qed.

Lemma set_set {V} (k : string) (v w : V) (d : Py.dict V) :
  Py.set k v (Py.set k w d) = Py.set k v d.
Proof.
  induction d as [|[k' v'] d IH]; simpl.
  - now rewrite String.eqb_refl.
  - destruct (String.eqb k k') eqn:E; simpl; rewrite E; [reflexivity|].
    now rewrite IH.
Qed.

Lemma get_app {V} (k : string) (d e : Py.dict V) :
  Py.get k (d ++ e) =
  match Py.get k d with Some v => Some v | None => Py.get k e end.
Proof.
  induction d as [|[k' v'] d IH]; simpl; [reflexivity|].
  destruct (String.eqb k k'); auto.
Qed.

Lemma get_none_notin {V} (k : string) (d : Py.dict V) :
  Py.get k d = None <-> ~ In k (map fst d).
Proof.
  induction d as [|[k' v'] d IH]; simpl; [tauto|].
  destruct (String.eqb k k') eqn:E.
  - apply String.eqb_eq in E. subst. split; [discriminate|tauto].
  - apply String.eqb_neq in E. rewrite IH. split; [intros H [?|?]|]; intuition.
Qed.

Lemma update_fresh {V} (items : list (string * V)) (d : Py.dict V) :
  NoDup (map fst items) ->
  (forall k, In k (map fst items) -> Py.get k d = None) ->
  Py.update items d = d ++ items.
Proof.
  revert d. induction items as [|[k v] items IH]; intros d Hn Hd.
  - unfold Py.update. simpl. now rewrite app_nil_r.
  - inversion Hn as [|? ? Hk Hn']; subst.
    unfold Py.update in *. simpl.
    rewrite set_absent by (apply Hd; now left).
    rewrite IH; [now rewrite <- app_assoc|assumption|].
    intros k' Hk'. rewrite get_app, (Hd k') by now right.
    simpl. destruct (String.eqb k' k) eqn:E; [|reflexivity].
    apply String.eqb_eq in E. subst. contradiction.
Qed.

Lemma mem_In (x : string) (l : list string) :
  Py.mem x l = true <-> In x l.
Proof.
  unfold Py.mem. rewrite existsb_exists. split.
  - intros (y & Hy & E). apply String.eqb_eq in E. now subst.
  - intros H. exists x. split; [assumption|apply String.eqb_refl].
Qed.

Lemma distinct_NoDup (l : list string) : distinct l = true -> NoDup l.
Proof.
  induction l as [|x l IH]; simpl; intros H; constructor.
  - apply andb_true_iff in H. destruct H as [H _].
    apply negb_true_iff in H. intros Hin. apply mem_In in Hin. congruence.
  - apply IH. apply andb_true_iff in H. tauto.
Qed.

Lemma ins_all_app (a b : list (list string * string))
      (d : list (string * value)) :
  ins_all (a ++ b) d =
  match ins_all a d with
  | inr d' => ins_all b d'
  | inl e => inl e
  end.
Proof.
  revert d. induction a as [|ps a IH]; intros d; simpl; [reflexivity|].
  destruct (ins d ps); auto.
Qed.

Lemma convert_loop_app (a b : list (string * string))
      (d : list (string * value)) :
  convert_loop (a ++ b) d =
  match convert_loop a d with
  | inr d' => convert_loop b d'
  | inl e => inl e
  end.
Proof.
  revert d. induction a as [|x a IH]; intros d; simpl; [reflexivity|].
  destruct (convert_step d x); auto.
Qed.

Lemma set_path_step (idx next : string) (rest : list string) (x : value)
      (d : list (string * value)) :
  set_path (idx :: next :: rest) x (VDict d) =
  match set_path (next :: rest) x
          (match Py.get idx d with
           | Some (VList l) => if is_empty_str next then VList l else VDict []
           | Some (VDict c) => if is_empty_str next then VList [] else VDict c
           | _ => if is_empty_str next then VList [] else VDict []
           end) with
  | inr child' => inr (VDict (Py.set idx child' d))
  | inl e => inl e
  end.
Proof. reflexivity. Qed.

Lemma set_path_keeps_dict (p : list string) (x : value)
      (c : list (string * value)) (r : value) :
  set_path p x (VDict c) = inr r -> exists c', r = VDict c'.
Proof.
  destruct p as [|idx [|next rest]].
  - discriminate.
  - simpl. destruct (is_empty_str idx); [discriminate|].
    intros E. inversion E. eauto.
  - rewrite set_path_step.
    destruct (set_path (next :: rest) x _); [discriminate|].
    intros E. inversion E. eauto.
Qed.

(** Going through a map on the way to a deeper place. *)
Lemma ins_lift (k k' : string) (rest : list string) (s : string)
      (d c1 : list (string * value)) :
  is_empty_str k' = false ->
  Py.get k d = Some (VDict c1) \/ (Py.get k d = None /\ c1 = []) ->
  ins d (k :: k' :: rest, s) =
  match ins c1 (k' :: rest, s) with
  | inr c1' => inr (Py.set k (VDict c1') d)
  | inl e => inl e
  end.
Proof.
  intros Hk' Hc. unfold ins.
  cbn [fst snd]. rewrite set_path_step, Hk'.
  assert (Hchild : match Py.get k d with
                   | Some (VList _) => VDict []
                   | Some (VDict c) => VDict c
                   | _ => VDict []
                   end = VDict c1).
  { destruct Hc as [E|[E ->]]; now rewrite E. }
  rewrite Hchild.
  destruct (set_path (k' :: rest) (VStr s) (VDict c1)) as [e|r] eqn:E;
    [reflexivity|].
  destruct (set_path_keeps_dict _ _ _ _ E) as [c' ->]. reflexivity.
Qed.

Lemma set_same {V} (k : string) (v : V) (d : Py.dict V) :
  Py.get k d = Some v -> Py.set k v d = d.
Proof.
  induction d as [|[k' v'] d IH]; simpl; [discriminate|].
  destruct (String.eqb k k') eqn:E.
  - intros H. inversion H. reflexivity.
  - intros H. now rewrite IH.
Qed.

Lemma ins_all_lift (k : string) (items : list (list string * string)) :
  Forall starts_nonempty items ->
  forall d c1 c1',
    Py.get k d = Some (VDict c1) ->
    ins_all items c1 = inr c1' ->
    ins_all (map (fun ps => (k :: fst ps, snd ps)) items) d
    = inr (Py.set k (VDict c1') d).
Proof.
  induction 1 as [|[p s] items (k' & rest & E & Hk') _ IH];
    intros d c1 c1' Hg Hi.
  - simpl in *. inversion Hi; subst. now rewrite set_same.
  - simpl in E. subst p. simpl in Hi |- *.
    rewrite (ins_lift k k' rest s d c1 Hk' (or_introl Hg)).
    destruct (ins c1 (k' :: rest, s)) as [e|c2]; [discriminate|].
    rewrite (IH (Py.set k (VDict c2) d) c2 c1' (get_set_same _ _ _ _) Hi).
    now rewrite set_set.
Qed.

Lemma ins_all_lift_new (k : string) (items : list (list string * string)) :
  Forall starts_nonempty items ->
  items <> [] ->
  forall d c1',
    Py.get k d = None ->
    ins_all items [] = inr c1' ->
    ins_all (map (fun ps => (k :: fst ps, snd ps)) items) d
    = inr (d ++ [(k, VDict c1')]).
Proof.
  intros Hall Hne d c1' Hg Hi.
  destruct items as [|[p s] items]; [congruence|].
  inversion Hall as [|? ? (k' & rest & E & Hk') Hall']; subst.
  simpl in E. subst p. simpl in Hi |- *.
  rewrite (ins_lift k k' rest s d [] Hk' (or_intror (conj Hg eq_refl))).
  destruct (ins [] (k' :: rest, s)) as [e|c2]; [discriminate|].
  rewrite (ins_all_lift k items Hall' (Py.set k (VDict c2) d) c2 c1'
             (get_set_same _ _ _ _) Hi).
  now rewrite set_set, set_absent.
Qed.

Lemma has_contiguous_nil : _has_contiguous_int_keys [] = true.
Proof. reflexivity. Qed.

Lemma invertible_dict (c : list (string * value)) :
  invertible (VDict c) = true ->
  _has_contiguous_int_keys c = false
  /\ c <> []
  /\ NoDup (map fst c)
  /\ Forall (fun kv => bracket_free (fst kv) = true
                       /\ is_empty_str (fst kv) = false
                       /\ invertible (snd kv) = true) c.
Proof.
  intros H. cbn [invertible] in H.
  apply andb_true_iff in H. destruct H as [H H3].
  apply andb_true_iff in H. destruct H as [H1 H2].
  apply negb_true_iff in H1.
  split; [assumption|]. split; [intros ->; discriminate|].
  split; [now apply distinct_NoDup|].
  apply Forall_forall. intros kv Hin.
  rewrite forallb_forall in H3. specialize (H3 kv Hin).
  apply andb_true_iff in H3. destruct H3 as [H3 H5].
  apply andb_true_iff in H3. destruct H3 as [H3 H4].
  apply negb_true_iff in H4. auto.
Qed.

Lemma invertible_list (l : list value) :
  invertible (VList l) = true -> exists s, l = [VStr s].
Proof.
  destruct l as [|[s|l'|d'] [|y l]]; simpl; try discriminate. eauto.
Qed.

Lemma paths_props (v : value) :
  invertible v = true ->
  paths v <> [] /\ Forall (good_path v) (paths v).
Proof.
  induction v as [s|l IH|c IH] using value_ind2; intros Hv.
  - split; [discriminate|]. repeat constructor. discriminate.
  - destruct (invertible_list l Hv) as [s ->]. simpl.
    split; [discriminate|]. repeat constructor. discriminate.
  - destruct (invertible_dict c Hv) as (_ & Hne & _ & Hc).
    split.
    + destruct c as [|[k' v'] c]; [congruence|].
      inversion IH as [|? ? IHv _]; subst.
      inversion Hc as [|? ? (_ & _ & Hv') _]; subst.
      simpl in *. destruct (IHv Hv') as [Hp _].
      destruct (paths v'); [congruence|discriminate].
    + cbn [paths]. apply Forall_flat_map.
      rewrite Forall_forall in *. intros kv Hin.
      destruct (Hc kv Hin) as (Hb & _ & Hv').
      destruct (IH kv Hin Hv') as [_ Hp].
      rewrite Forall_forall in *. intros ps Hps.
      apply in_map_iff in Hps. destruct Hps as (ps' & <- & Hps').
      destruct (Hp ps' Hps') as [Hf _].
      split; [now constructor|discriminate].
Qed.

Lemma ins_entries (c2 : list (string * value)) :
  Forall (fun kv =>
            is_empty_str (fst kv) = false
            /\ forall k d,
                Py.get k d = None ->
                (is_empty_str k = true -> is_leaf (snd kv) = false) ->
                ins_all (map (fun ps => (k :: fst ps, snd ps))
                             (paths (snd kv))) d
                = inr (d ++ [(k, snd kv)])) c2 ->
  NoDup (map fst c2) ->
  forall c1,
    (forall k, In k (map fst c2) -> Py.get k c1 = None) ->
    ins_all (flat_map (fun kv => map (fun ps => (fst kv :: fst ps, snd ps))
                                     (paths (snd kv))) c2) c1
    = inr (c1 ++ c2).
Proof.
  induction 1 as [|[k' v'] c2 [Hk' Hv'] _ IH]; intros Hn c1 Hc1.
  - simpl. now rewrite app_nil_r.
  - inversion Hn as [|? ? Hnotin Hn']; subst.
    cbn [flat_map fst snd] in *. rewrite ins_all_app.
    rewrite Hv'.
    + rewrite IH; [now rewrite <- app_assoc|assumption|].
      intros k Hk. rewrite get_app, (Hc1 k) by now right.
      simpl. destruct (String.eqb k k') eqn:E; [|reflexivity].
      apply String.eqb_eq in E. subst. contradiction.
    + apply Hc1. now left.
    + intros E. congruence.
Qed.

(** Inserting the leaves of an invertible structure, in order, under a new
    key of a map adds the structure under that key. *)
Lemma ins_subtree (v : value) :
  invertible v = true ->
  forall k d,
    Py.get k d = None ->
    (is_empty_str k = true -> is_leaf v = false) ->
    ins_all (map (fun ps => (k :: fst ps, snd ps)) (paths v)) d
    = inr (d ++ [(k, v)]).
Proof.
  induction v as [s|l IH|c IH] using value_ind2; intros Hv k d Hg Hk.
  - simpl. unfold ins. simpl.
    destruct (is_empty_str k) eqn:E; [specialize (Hk eq_refl); discriminate|].
    now rewrite set_absent.
  - destruct (invertible_list l Hv) as [s ->]. simpl.
    unfold ins. simpl. rewrite Hg. simpl. now rewrite set_absent.
  - destruct (invertible_dict c Hv) as (_ & Hne & Hn & Hc).
    apply ins_all_lift_new; [| |assumption|].
    + cbn [paths]. apply Forall_flat_map.
      rewrite Forall_forall in *. intros kv Hin.
      destruct (Hc kv Hin) as (_ & He & _).
      rewrite Forall_forall. intros ps Hps.
      apply in_map_iff in Hps. destruct Hps as (ps' & <- & _).
      exists (fst kv), (fst ps'). auto.
    + apply (proj1 (paths_props (VDict c) Hv)).
    + cbn [paths]. rewrite (ins_entries c); [reflexivity| |assumption|easy].
      rewrite Forall_forall in *. intros kv Hin.
      destruct (Hc kv Hin) as (_ & He & Hv').
      split; [assumption|]. intros k0 d0 Hg0 Hk0.
      now apply (IH kv Hin Hv').
Qed.

Lemma convert_step_path (k : string) (p : list string) (s : string)
      (d : list (string * value)) :
  bracket_free k = true ->
  Forall (fun j => bracket_free j = true) p ->
  p <> [] ->
  convert_step d ((k ++ enc p)%string, s) = ins d (k :: p, s).
Proof.
  intros Hk Hp Hne. destruct (decode_key k p Hk Hp Hne) as [H1 H2].
  unfold convert_step, ins. now rewrite H1, H2.
Qed.

Lemma convert_loop_paths (k : string) (items : list (list string * string)) :
  bracket_free k = true ->
  Forall (fun ps => Forall (fun j => bracket_free j = true) (fst ps)
                    /\ fst ps <> []) items ->
  forall d,
    convert_loop (map (fun ps => ((k ++ enc (fst ps))%string, snd ps)) items) d
    = ins_all (map (fun ps => (k :: fst ps, snd ps)) items) d.
Proof.
  intros Hk. induction 1 as [|[p s] items [Hp Hne] _ IH]; intros d.
  - reflexivity.
  - cbn [map convert_loop ins_all fst snd] in *.
    rewrite convert_step_path by assumption.
    destruct (ins d (k :: p, s)); auto.
Qed.

Lemma invertible_args_entries (d : list (string * value)) :
  invertible_args d = true ->
  NoDup (map fst d)
  /\ Forall (fun kv => bracket_free (fst kv) = true
                       /\ invertible (snd kv) = true) d.
Proof.
  unfold invertible_args. intros H.
  apply andb_true_iff in H. destruct H as [H1 H2].
  split; [now apply distinct_NoDup|].
  apply Forall_forall. intros kv Hin.
  rewrite forallb_forall in H2. specialize (H2 kv Hin).
  now apply andb_true_iff in H2.
Qed.

Lemma convert_loop_flatten (d2 : list (string * value)) :
  Forall (fun kv => bracket_free (fst kv) = true
                    /\ invertible (snd kv) = true) d2 ->
  NoDup (map fst d2) ->
  forall d1,
    (forall k, In k (map fst d2) -> Py.get k d1 = None) ->
    convert_loop (flatten d2) d1 = inr (d1 ++ d2).
Proof.
  induction 1 as [|[k v] d2 [Hk Hv] _ IH]; intros Hn d1 Hd1.
  - simpl. now rewrite app_nil_r.
  - inversion Hn as [|? ? Hnotin Hn']; subst.
    unfold flatten in *. cbn [flat_map fst snd] in *.
    rewrite convert_loop_app.
    assert (Hone : convert_loop (flatten_value k v) d1 = inr (d1 ++ [(k, v)])).
    { destruct (is_leaf v) eqn:El.
      - destruct v as [s| |]; try discriminate. simpl.
        apply bracket_free_chars in Hk. destruct Hk as [Hk1 _].
        unfold Py.has_char in Hk1. rewrite Hk1.
        rewrite set_absent; [reflexivity|]. apply Hd1. now left.
      - rewrite flatten_value_paths.
        destruct (paths_props v Hv) as [_ Hp].
        rewrite convert_loop_paths; [| assumption |].
        + apply ins_subtree; [assumption| |auto]. apply Hd1. now left.
        + rewrite Forall_forall in *. intros ps Hps.
          destruct (Hp ps Hps) as [H1 H2]. auto. }
    rewrite Hone. rewrite IH; [now rewrite <- app_assoc|assumption|].
    intros k' Hk'. rewrite get_app, (Hd1 k') by now right.
    simpl. destruct (String.eqb k' k) eqn:E; [|reflexivity].
    apply String.eqb_eq in E. subst. contradiction.
Qed.

Lemma convert_value_invertible (v : value) :
  invertible v = true -> convert_value v = v.
Proof.
  induction v as [s|l IH|c IH] using value_ind2; intros Hv; try reflexivity.
  destruct (invertible_dict c Hv) as (Hc & _ & _ & Hall).
  cbn [convert_value]. rewrite Hc. f_equal.
  rewrite <- (map_id c) at 2. apply map_ext_in.
  intros [k x] Hin. rewrite Forall_forall in *.
  destruct (Hall _ Hin) as (_ & _ & Hx).
  simpl. f_equal. exact (IH _ Hin Hx).
Qed.

Lemma decode_enc (k : string) (p : list string) :
  bracket_free k = true ->
  Forall (fun j => bracket_free j = true) p ->
  decode (k ++ enc p) = k :: p.
Proof.
  intros Hk Hp. destruct p as [|i r].
  - simpl. rewrite append_nil_r. unfold decode.
    apply bracket_free_chars in Hk. destruct Hk as [Hk1 _].
    unfold Py.has_char in Hk1. now rewrite Hk1.
  - destruct (decode_key k (i :: r) Hk Hp ltac:(discriminate)) as [H1 H2].
    unfold decode. now rewrite H1, H2.
Qed.

Lemma nodup_map_cons {A} (k : A) (l : list (list A)) :
  NoDup l -> NoDup (map (cons k) l).
Proof.
  induction 1 as [|x l Hx _ IH]; simpl; constructor; auto.
  intros Hin. apply in_map_iff in Hin. destruct Hin as (y & E & Hy).
  inversion E; subst. contradiction.
Qed.

Lemma nodup_groups {A} (c : list (string * A)) (L : string * A -> list (list string)) :
  NoDup (map fst c) ->
  (forall kv, In kv c -> NoDup (L kv)) ->
  NoDup (flat_map (fun kv => map (cons (fst kv)) (L kv)) c).
Proof.
  induction c as [|[k x] c IH]; intros Hn HL; [constructor|].
  inversion Hn as [|? ? Hnotin Hn']; subst. simpl.
  apply NoDup_app.
  - apply nodup_map_cons. apply HL. now left.
  - apply IH; [assumption|]. intros kv Hin. apply HL. now right.
  - intros p Hp Hq.
    apply in_map_iff in Hp. destruct Hp as (p' & <- & _).
    apply in_flat_map in Hq. destruct Hq as ([k' x'] & Hin & Hq).
    apply in_map_iff in Hq. destruct Hq as (q' & E & _).
    simpl in E. inversion E; subst.
    apply Hnotin. apply in_map_iff. now exists (k, x').
Qed.

Lemma map_fst_paths_dict (c : list (string * value)) :
  map fst (paths (VDict c))
  = flat_map (fun kv => map (cons (fst kv)) (map fst (paths (snd kv)))) c.
Proof.
  cbn [paths]. induction c as [|[k x] c IH]; [reflexivity|].
  simpl. rewrite map_app, IH, !map_map. reflexivity.
Qed.

Lemma nodup_paths (v : value) :
  invertible v = true -> NoDup (map fst (paths v)).
Proof.
  induction v as [s|l IH|c IH] using value_ind2; intros Hv.
  - simpl. repeat constructor. easy.
  - destruct (invertible_list l Hv) as [s ->]. simpl.
    repeat constructor. easy.
  - destruct (invertible_dict c Hv) as (_ & _ & Hn & Hall).
    rewrite map_fst_paths_dict.
    apply (nodup_groups c (fun kv => map fst (paths (snd kv)))); [assumption|].
    intros kv Hin. rewrite Forall_forall in *.
    destruct (Hall kv Hin) as (_ & _ & Hx). now apply IH.
Qed.

Lemma nodup_flatten_keys (d : list (string * value)) :
  invertible_args d = true -> NoDup (map fst (flatten d)).
Proof.
  intros Hd. destruct (invertible_args_entries d Hd) as [Hn Hall].
  apply (NoDup_map_inv decode).
  assert (E : map decode (map fst (flatten d))
              = flat_map (fun kv => map (cons (fst kv))
                                        (map fst (paths (snd kv)))) d).
  { unfold flatten. clear Hn Hd.
    induction Hall as [|[k v] d [Hk Hv] _ IH]; [reflexivity|].
    cbn [flat_map fst snd]. rewrite !map_app, IH. f_equal.
    rewrite flatten_value_paths, !map_map.
    destruct (paths_props v Hv) as [_ Hp].
    apply map_ext_in. intros ps Hps. rewrite Forall_forall in Hp.
    destruct (Hp ps Hps) as [Hf _]. simpl. now apply decode_enc. }
  rewrite E.
  apply (nodup_groups d (fun kv => map fst (paths (snd kv)))); [assumption|].
  intros kv Hin. rewrite Forall_forall in Hall.
  destruct (Hall kv Hin) as [_ Hv]. now apply nodup_paths.
Qed.

(** Facts on the conversion of maps with contiguous integer keys. *)
Lemma get_map_values (f : value -> value) (k : string)
      (d : list (string * value)) :
  Py.get k (map (fun kv => (fst kv, f (snd kv))) d)
  = option_map f (Py.get k d).
Proof.
  induction d as [|[k' v'] d IH]; simpl; [reflexivity|].
  destruct (String.eqb k k'); auto.
Qed.

Lemma has_In {V} (k : string) (d : Py.dict V) :
  Py.has k d = true <-> In k (map fst d).
Proof.
  unfold Py.has. destruct (Py.get k d) eqn:E.
  - split; [|reflexivity]. intros _.
    destruct (in_dec string_dec k (map fst d)) as [H|H]; [assumption|].
    apply get_none_notin in H. congruence.
  - split; [discriminate|]. intros H.
    apply get_none_notin in E. contradiction.
Qed.

Lemma contiguous_spec (m : list (string * value)) :
  _has_contiguous_int_keys m = true <->
  forall i, i < List.length m -> In (Py.str_of_nat i) (map fst m).
Proof.
  unfold _has_contiguous_int_keys. rewrite forallb_forall. split.
  - intros H i Hi. apply has_In. apply H. apply in_seq. lia.
  - intros H i Hi. apply has_In. apply H. apply in_seq in Hi. lia.
Qed.

Lemma convert_dict_to_array_map (m : list (string * value)) (js : list nat) :
  (forall i, In i js -> In (Py.str_of_nat i) (map fst m)) ->
  map Some (flat_map (fun i => match Py.get (Py.str_of_nat i) m with
                               | Some v => [v]
                               | None => []
                               end) js)
  = map (fun i => Py.get (Py.str_of_nat i) m) js.
Proof.
  induction js as [|j js IH]; intros H; [reflexivity|].
  simpl. rewrite map_app, IH by (intros; apply H; now right).
  destruct (Py.get (Py.str_of_nat j) m) eqn:E; [reflexivity|].
  apply get_none_notin in E. exfalso. apply E. apply H. now left.
Qed.

Lemma convert_dict_to_array_nth (m : list (string * value)) (i : nat) :
  _has_contiguous_int_keys m = true ->
  i < List.length m ->
  List.length (_convert_dict_to_array m) = List.length m
  /\ exists x, Py.get (Py.str_of_nat i) m = Some x
               /\ nth_error (_convert_dict_to_array m) i = Some x.
Proof.
  intros Hc Hi. rewrite contiguous_spec in Hc.
  assert (E : map Some (_convert_dict_to_array m)
              = map (fun j => Py.get (Py.str_of_nat j) m)
                    (seq 0 (List.length m))).
  { apply convert_dict_to_array_map.
    intros j Hj. apply Hc. apply in_seq in Hj. lia. }
  assert (El : List.length (_convert_dict_to_array m) = List.length m).
  { rewrite <- (length_map Some), E.
    now rewrite length_map, length_seq. }
  split; [exact El|].
  assert (En : nth_error (map Some (_convert_dict_to_array m)) i
               = Some (Py.get (Py.str_of_nat i) m)).
  { rewrite E.
    rewrite nth_error_map, nth_error_seq.
    destruct (i <? List.length m)%nat eqn:Hlt; [reflexivity|].
    apply Nat.ltb_ge in Hlt. lia. }
  rewrite nth_error_map in En.
  destruct (nth_error (_convert_dict_to_array m) i) as [x|]; [|discriminate].
  simpl in En. inversion En as [Ex]. exists x. auto.
Qed.

(** C9, as the code has it.  [convert_array_args] undoes the flattening of
    a structure in which every list holds exactly one string and no map
    below the top is empty or has exactly the keys [0..n-1], the keys of
    each map being distinct and free of brackets and those below the top
    non-empty; in particular a key without brackets keeps its string.  A
    map with exactly the keys [0..n-1] that is the value of a key of the
    top map, or of a map below it that is not itself converted, is
    replaced by the list of its values in index order. *)
Theorem convert_array_args_round_trip :
  (forall d,
      invertible_args d = true ->
      convert_array_args (as_dict (flatten d)) = inr d)
  /\ (forall d k m,
         Py.get k d = Some (VDict m) ->
         _has_contiguous_int_keys m = true ->
         Py.get k (_convert_dicts_to_arrays d)
         = Some (VList (_convert_dict_to_array m))
         /\ List.length (_convert_dict_to_array m) = List.length m
         /\ forall i, i < List.length m ->
              exists x, Py.get (Py.str_of_nat i) m = Some x
                        /\ nth_error (_convert_dict_to_array m) i = Some x)
  /\ (forall m,
         _has_contiguous_int_keys m = true <->
         forall i, i < List.length m -> In (Py.str_of_nat i) (map fst m))
  /\ (forall m,
         _has_contiguous_int_keys m = false ->
         convert_value (VDict m) = VDict (_convert_dicts_to_arrays m)).
Proof.
  split; [|split; [|split]].
  - intros d Hd. destruct (invertible_args_entries d Hd) as [Hn Hall].
    unfold convert_array_args, as_dict.
    rewrite update_fresh; [|now apply nodup_flatten_keys|reflexivity].
    rewrite app_nil_l, (convert_loop_flatten d Hall Hn []) by reflexivity.
    rewrite app_nil_l. f_equal. unfold _convert_dicts_to_arrays.
    rewrite <- (map_id d) at 2. apply map_ext_in.
    intros [k v] Hin. rewrite Forall_forall in Hall.
    destruct (Hall _ Hin) as [_ Hv]. simpl.
    now rewrite convert_value_invertible.
  - intros d k m Hg Hc. split; [|split].
    + unfold _convert_dicts_to_arrays. rewrite get_map_values, Hg.
      simpl. now rewrite Hc.
    + destruct m as [|e m]; [reflexivity|].
      apply (convert_dict_to_array_nth (e :: m) 0 Hc). simpl. lia.
    + intros i Hi. now apply convert_dict_to_array_nth.
  - apply contiguous_spec.
  - intros m Hm. cbn [convert_value]. now rewrite Hm.
Qed.

End DeepArrays.

(** The values of a converted map are taken as they are: the inner map of
    [d[0][0]] stays a map. *)
Example convert_nested_index :
  UrlHelper.convert_array_args [("d[0][0]", "q")]
  = inr [("d", UrlHelper.VList
                 [UrlHelper.VDict [("0", UrlHelper.VStr "q")]])].
Proof. reflexivity. Qed.

(** A flat map holds one value per key, so of a list flattened to the key
    [a[]] only the last element is left. *)
Example convert_two_element_list :
  UrlHelper.convert_array_args
    (UrlHelper.as_dict
       (UrlHelper.flatten
          [("a", UrlHelper.VList [UrlHelper.VStr "x"; UrlHelper.VStr "y"])]))
  = inr [("a", UrlHelper.VList [UrlHelper.VStr "y"])].
Proof. reflexivity. Qed.

(** C9 as stated fails: a map whose only key is [0] flattens to the key
    [a[0]], and the converter gives back a list, not the map. *)
Lemma convert_array_args_round_trip_counterexample :
  UrlHelper.flatten [("a", UrlHelper.VDict [("0", UrlHelper.VStr "x")])]
  = [("a[0]", "x")]
  /\ UrlHelper.convert_array_args
       (UrlHelper.as_dict
          (UrlHelper.flatten
             [("a", UrlHelper.VDict [("0", UrlHelper.VStr "x")])]))
     = inr [("a", UrlHelper.VList [UrlHelper.VStr "x"])]
  /\ UrlHelper.convert_array_args
       (UrlHelper.as_dict
          (UrlHelper.flatten
             [("a", UrlHelper.VDict [("0", UrlHelper.VStr "x")])]))
     <> inr [("a", UrlHelper.VDict [("0", UrlHelper.VStr "x")])].
Proof. repeat split. discriminate. Qed.

Lemma convert_array_args_round_trip_witness :
  UrlHelper.convert_array_args
    (UrlHelper.as_dict
       (UrlHelper.flatten
          [("idsite", UrlHelper.VStr "3");
           ("ev", UrlHelper.VDict
                    [("abc", UrlHelper.VList [UrlHelper.VStr "v"]);
                     ("n", UrlHelper.VDict [("x", UrlHelper.VStr "1")])])]))
  = inr [("idsite", UrlHelper.VStr "3");
         ("ev", UrlHelper.VDict
                  [("abc", UrlHelper.VList [UrlHelper.VStr "v"]);
                   ("n", UrlHelper.VDict [("x", UrlHelper.VStr "1")])])].
Proof.
  apply (proj1 convert_array_args_round_trip). reflexivity.
Defined.
